(** * Visual odometry of RatSLAM (src/ratslam/visual_odometry.cpp)

    A shallow embedding of the [VisualOdometry] class: its constructor,
    [on_image], [visual_odo] and [convert_view_to_view_template], with the
    properties of the specification stated and proved over it.

    The C++ [double] is an interface ([Double]) with two implementations:
    - [binary64]: the kernel's IEEE 754 binary64 numbers, which is what the
      compiled code computes with (NaN, infinities and rounding included);
    - [exact]: rational numbers, arithmetic without rounding, used for the
      numeric bounds.
    The program is written once, over the interface.  Everything proved with
    no assumption on the interface holds for both. *)

From Stdlib Require Import ZArith QArith Qabs List Bool Lia Lqa Floats.
From Stdlib.Strings Require Import Byte.
Import ListNotations.
Local Open Scope Z_scope.

(** ** The [double] interface *)

Class Double (D : Type) := {
  of_int : Z -> D;            (* conversion of an int to double *)
  lit_1e6 : D;                (* the literal 1e6 *)
  M_PI : D;                   (* the macro M_PI of <cmath> *)
  dadd : D -> D -> D;
  dsub : D -> D -> D;
  dmul : D -> D -> D;
  ddiv : D -> D -> D;
  fabs : D -> D;
  dlt : D -> D -> bool        (* a < b *)
}.

(** IEEE 754 binary64.  Every int of the program fits in 63 bits, so the
    conversion through [of_uint63] is exact. *)
Definition float_of_Z (z : Z) : float :=
  if z <? 0 then PrimFloat.opp (PrimFloat.of_uint63 (Uint63.of_Z (- z)))
  else PrimFloat.of_uint63 (Uint63.of_Z z).

#[export] Instance binary64 : Double float := {
  of_int := float_of_Z;
  lit_1e6 := 1e6%float;
  M_PI := 0x1.921fb54442d18p+1%float;
  dadd := PrimFloat.add;
  dsub := PrimFloat.sub;
  dmul := PrimFloat.mul;
  ddiv := PrimFloat.div;
  fabs := PrimFloat.abs;
  dlt := PrimFloat.ltb
}.

(** Exact rational arithmetic.  [M_PI] is the rational that the binary64
    constant denotes, 7074237752028440 / 2^51. *)
Definition Qltb (a b : Q) : bool := negb (Qle_bool b a).

#[export] Instance exact : Double Q := {
  of_int := inject_Z;
  lit_1e6 := (1000000 # 1)%Q;
  M_PI := (7074237752028440 # 2251799813685248)%Q;
  dadd := Qplus;
  dsub := Qminus;
  dmul := Qmult;
  ddiv := Qdiv;
  fabs := Qabs;
  dlt := Qltb
}.

(** ** Integer conversions of the source *)

Definition to_uint32 (z : Z) : Z := z mod 2 ^ 32.   (* int -> unsigned int *)
Definition to_int32 (z : Z) : Z :=                  (* wrap into int *)
  (z + 2 ^ 31) mod 2 ^ 32 - 2 ^ 31.
Definition to_ushort (z : Z) : Z := z mod 2 ^ 16.   (* size_t -> unsigned short *)

(** ** Loops and vectors *)

(** [for (i = 0; i < n; i++) s = body i s]; no iteration when [n <= 0]. *)
Definition for_upto {S : Type} (n : Z) (body : Z -> S -> S) (s : S) : S :=
  fold_left (fun s i => body (Z.of_nat i) s) (seq 0 (Z.to_nat n)) s.

(** [for (x = a; x < b; x++) s = body x s]. *)
Definition for_range {S : Type} (a b : Z) (body : Z -> S -> S) (s : S) : S :=
  for_upto (b - a) (fun i => body (a + i)) s.

Fixpoint upd {A : Type} (l : list A) (n : nat) (v : A) : list A :=
  match l, n with
  | [], _ => []
  | _ :: t, O => v :: t
  | h :: t, S n' => h :: upd t n' v
  end.

(** [v[i]] and [v[i] = x] on a vector.  An index outside the vector is
    undefined behaviour in the source; here a read gives [dflt] and a write
    does nothing. *)
Definition rd {A : Type} (dflt : A) (l : list A) (i : Z) : A :=
  if i <? 0 then dflt else nth (Z.to_nat i) l dflt.

Definition wr {A : Type} (l : list A) (i : Z) (v : A) : list A :=
  if i <? 0 then l else upd l (Z.to_nat i) v.

(** The byte [view_rgb[pos]], as an int. *)
Definition px (view_rgb : list byte) (pos : Z) : Z :=
  Z.of_N (Byte.to_N (rd x00 view_rgb pos)).

Section Program.

Context {D : Type} {dbl : Double D}.

Definition d0 : D := of_int 0.

(** ** The instance *)

Record VisualOdometry := {
  IMAGE_HEIGHT : Z;
  IMAGE_WIDTH : Z;
  VTRANS_IMAGE_X_MIN : Z;
  VTRANS_IMAGE_X_MAX : Z;
  VTRANS_IMAGE_Y_MIN : Z;
  VTRANS_IMAGE_Y_MAX : Z;
  VROT_IMAGE_X_MIN : Z;
  VROT_IMAGE_X_MAX : Z;
  VROT_IMAGE_Y_MIN : Z;
  VROT_IMAGE_Y_MAX : Z;
  CAMERA_FOV_DEG : D;
  CAMERA_HZ : D;
  VTRANS_SCALING : D;
  VTRANS_MAX : D;
  vtrans_profile : list D;
  vrot_profile : list D;
  vtrans_prev_profile : list D;
  vrot_prev_profile : list D;
  first : bool
}.

(** [v.resize(n)] on an empty [std::vector<double>], [n] an int: the new
    elements are value-initialised to 0.0; a negative [n] converts to a
    [size_t] above [max_size()] and the call throws. *)
Definition resize (n : Z) : option (list D) :=
  if n <? 0 then None else Some (repeat d0 (Z.to_nat n)).

(** The constructor.  It reads the members [IMAGE_WIDTH] and [IMAGE_HEIGHT],
    which it does not set (only [on_image] assigns them); the class
    declaration (visual_odometry.h) is not part of the sources at hand, so
    the values those members hold when the body runs are the parameters
    [image_width_member] and [image_height_member].  The width given to
    [resize] is the int difference [X_MAX - X_MIN], which wraps around when
    it leaves the range of int.  [None] is a throwing [resize]. *)
Definition VisualOdometry_ctor
    (image_width_member image_height_member : Z)
    (vtrans_image_x_min vtrans_image_x_max
     vtrans_image_y_min vtrans_image_y_max
     vrot_image_x_min vrot_image_x_max
     vrot_image_y_min vrot_image_y_max : Z)
    (camera_fov_deg camera_hz vtrans_scaling vtrans_max : D)
  : option VisualOdometry :=
  let vtrans_x_max :=
    if vtrans_image_x_max <? 0 then image_width_member else vtrans_image_x_max in
  let vtrans_y_max :=
    if vtrans_image_y_max <? 0 then image_height_member else vtrans_image_y_max in
  let vrot_x_max :=
    if vrot_image_x_max <? 0 then image_width_member else vrot_image_x_max in
  let vrot_y_max :=
    if vrot_image_y_max <? 0 then image_height_member else vrot_image_y_max in
  match resize (to_int32 (vtrans_x_max - vtrans_image_x_min)),
        resize (to_int32 (vtrans_x_max - vtrans_image_x_min)),
        resize (to_int32 (vrot_x_max - vrot_image_x_min)),
        resize (to_int32 (vrot_x_max - vrot_image_x_min)) with
  | Some vtp, Some vtpp, Some vrp, Some vrpp =>
      Some {| IMAGE_HEIGHT := image_height_member;
              IMAGE_WIDTH := image_width_member;
              VTRANS_IMAGE_X_MIN := vtrans_image_x_min;
              VTRANS_IMAGE_X_MAX := vtrans_x_max;
              VTRANS_IMAGE_Y_MIN := vtrans_image_y_min;
              VTRANS_IMAGE_Y_MAX := vtrans_y_max;
              VROT_IMAGE_X_MIN := vrot_image_x_min;
              VROT_IMAGE_X_MAX := vrot_x_max;
              VROT_IMAGE_Y_MIN := vrot_image_y_min;
              VROT_IMAGE_Y_MAX := vrot_y_max;
              CAMERA_FOV_DEG := camera_fov_deg;
              CAMERA_HZ := camera_hz;
              VTRANS_SCALING := vtrans_scaling;
              VTRANS_MAX := vtrans_max;
              vtrans_profile := vtp;
              vrot_profile := vrp;
              vtrans_prev_profile := vtpp;
              vrot_prev_profile := vrpp;
              first := true |}
  | _, _, _, _ => None
  end.

(** Member updates: every other member is kept. *)
Inductive profile_id := VTRANS | VROT.

Definition set_dims (w h : Z) (vo : VisualOdometry) : VisualOdometry :=
  {| IMAGE_HEIGHT := h; IMAGE_WIDTH := w;
     VTRANS_IMAGE_X_MIN := VTRANS_IMAGE_X_MIN vo;
     VTRANS_IMAGE_X_MAX := VTRANS_IMAGE_X_MAX vo;
     VTRANS_IMAGE_Y_MIN := VTRANS_IMAGE_Y_MIN vo;
     VTRANS_IMAGE_Y_MAX := VTRANS_IMAGE_Y_MAX vo;
     VROT_IMAGE_X_MIN := VROT_IMAGE_X_MIN vo;
     VROT_IMAGE_X_MAX := VROT_IMAGE_X_MAX vo;
     VROT_IMAGE_Y_MIN := VROT_IMAGE_Y_MIN vo;
     VROT_IMAGE_Y_MAX := VROT_IMAGE_Y_MAX vo;
     CAMERA_FOV_DEG := CAMERA_FOV_DEG vo; CAMERA_HZ := CAMERA_HZ vo;
     VTRANS_SCALING := VTRANS_SCALING vo; VTRANS_MAX := VTRANS_MAX vo;
     vtrans_profile := vtrans_profile vo; vrot_profile := vrot_profile vo;
     vtrans_prev_profile := vtrans_prev_profile vo;
     vrot_prev_profile := vrot_prev_profile vo;
     first := first vo |}.

Definition set_first (b : bool) (vo : VisualOdometry) : VisualOdometry :=
  {| IMAGE_HEIGHT := IMAGE_HEIGHT vo; IMAGE_WIDTH := IMAGE_WIDTH vo;
     VTRANS_IMAGE_X_MIN := VTRANS_IMAGE_X_MIN vo;
     VTRANS_IMAGE_X_MAX := VTRANS_IMAGE_X_MAX vo;
     VTRANS_IMAGE_Y_MIN := VTRANS_IMAGE_Y_MIN vo;
     VTRANS_IMAGE_Y_MAX := VTRANS_IMAGE_Y_MAX vo;
     VROT_IMAGE_X_MIN := VROT_IMAGE_X_MIN vo;
     VROT_IMAGE_X_MAX := VROT_IMAGE_X_MAX vo;
     VROT_IMAGE_Y_MIN := VROT_IMAGE_Y_MIN vo;
     VROT_IMAGE_Y_MAX := VROT_IMAGE_Y_MAX vo;
     CAMERA_FOV_DEG := CAMERA_FOV_DEG vo; CAMERA_HZ := CAMERA_HZ vo;
     VTRANS_SCALING := VTRANS_SCALING vo; VTRANS_MAX := VTRANS_MAX vo;
     vtrans_profile := vtrans_profile vo; vrot_profile := vrot_profile vo;
     vtrans_prev_profile := vtrans_prev_profile vo;
     vrot_prev_profile := vrot_prev_profile vo;
     first := b |}.

(** The current profile of a region ([vtrans_profile] or [vrot_profile]). *)
Definition profile (p : profile_id) (vo : VisualOdometry) : list D :=
  match p with VTRANS => vtrans_profile vo | VROT => vrot_profile vo end.

(** The previous profile of a region. *)
Definition prev_profile (p : profile_id) (vo : VisualOdometry) : list D :=
  match p with VTRANS => vtrans_prev_profile vo | VROT => vrot_prev_profile vo end.

Definition set_profile (p : profile_id) (l : list D) (vo : VisualOdometry)
  : VisualOdometry :=
  {| IMAGE_HEIGHT := IMAGE_HEIGHT vo; IMAGE_WIDTH := IMAGE_WIDTH vo;
     VTRANS_IMAGE_X_MIN := VTRANS_IMAGE_X_MIN vo;
     VTRANS_IMAGE_X_MAX := VTRANS_IMAGE_X_MAX vo;
     VTRANS_IMAGE_Y_MIN := VTRANS_IMAGE_Y_MIN vo;
     VTRANS_IMAGE_Y_MAX := VTRANS_IMAGE_Y_MAX vo;
     VROT_IMAGE_X_MIN := VROT_IMAGE_X_MIN vo;
     VROT_IMAGE_X_MAX := VROT_IMAGE_X_MAX vo;
     VROT_IMAGE_Y_MIN := VROT_IMAGE_Y_MIN vo;
     VROT_IMAGE_Y_MAX := VROT_IMAGE_Y_MAX vo;
     CAMERA_FOV_DEG := CAMERA_FOV_DEG vo; CAMERA_HZ := CAMERA_HZ vo;
     VTRANS_SCALING := VTRANS_SCALING vo; VTRANS_MAX := VTRANS_MAX vo;
     vtrans_profile := match p with VTRANS => l | VROT => vtrans_profile vo end;
     vrot_profile := match p with VTRANS => vrot_profile vo | VROT => l end;
     vtrans_prev_profile := vtrans_prev_profile vo;
     vrot_prev_profile := vrot_prev_profile vo;
     first := first vo |}.

Definition set_prev_profile (p : profile_id) (l : list D) (vo : VisualOdometry)
  : VisualOdometry :=
  {| IMAGE_HEIGHT := IMAGE_HEIGHT vo; IMAGE_WIDTH := IMAGE_WIDTH vo;
     VTRANS_IMAGE_X_MIN := VTRANS_IMAGE_X_MIN vo;
     VTRANS_IMAGE_X_MAX := VTRANS_IMAGE_X_MAX vo;
     VTRANS_IMAGE_Y_MIN := VTRANS_IMAGE_Y_MIN vo;
     VTRANS_IMAGE_Y_MAX := VTRANS_IMAGE_Y_MAX vo;
     VROT_IMAGE_X_MIN := VROT_IMAGE_X_MIN vo;
     VROT_IMAGE_X_MAX := VROT_IMAGE_X_MAX vo;
     VROT_IMAGE_Y_MIN := VROT_IMAGE_Y_MIN vo;
     VROT_IMAGE_Y_MAX := VROT_IMAGE_Y_MAX vo;
     CAMERA_FOV_DEG := CAMERA_FOV_DEG vo; CAMERA_HZ := CAMERA_HZ vo;
     VTRANS_SCALING := VTRANS_SCALING vo; VTRANS_MAX := VTRANS_MAX vo;
     vtrans_profile := vtrans_profile vo; vrot_profile := vrot_profile vo;
     vtrans_prev_profile :=
       match p with VTRANS => l | VROT => vtrans_prev_profile vo end;
     vrot_prev_profile :=
       match p with VTRANS => vrot_prev_profile vo | VROT => l end;
     first := first vo |}.

(** [for (i = 0; i < n; i++) dst[i] = src[i]]: the copy loop of [on_image]
    and of [visual_odo]. *)
Definition copy_loop (n : Z) (src dst : list D) : list D :=
  for_upto n (fun i dst => wr dst i (rd d0 src i)) dst.

(** ** The profile extractor *)

(** The block loops of [convert_view_to_view_template].  Its two branches
    differ only in how a pixel is read ([sample x y], the value added for the
    pixel in column [x] and row [y]) and in the maximum value ([maxval],
    255.0 or 255.0 * 3.0) the sum is divided by.  The state is
    [(current_view, data_next)]. *)
Definition block_loops (sample : Z -> Z -> D) (maxval : D)
    (TEMPLATE_X_SIZE TEMPLATE_Y_SIZE X_RANGE_MIN Y_RANGE_MIN
     x_block_size y_block_size : Z)
    (st : list D * Z) : list D * Z :=
  for_upto TEMPLATE_Y_SIZE (fun y_block_count st =>
    let y_block := Y_RANGE_MIN + y_block_count * y_block_size in
    for_upto TEMPLATE_X_SIZE (fun x_block_count '(current_view, data_next) =>
      let x_block := X_RANGE_MIN + x_block_count * x_block_size in
      let current_view :=
        for_range x_block (x_block + x_block_size) (fun x current_view =>
          for_range y_block (y_block + y_block_size) (fun y current_view =>
            wr current_view data_next
               (dadd (rd d0 current_view data_next) (sample x y)))
            current_view)
          current_view in
      let current_view :=
        wr current_view data_next
           (ddiv (rd d0 current_view data_next) maxval) in
      let current_view :=
        wr current_view data_next
           (ddiv (rd d0 current_view data_next)
                 (of_int (x_block_size * y_block_size))) in
      (current_view, data_next + 1)) st) st.

(** [convert_view_to_view_template]; [vo] is [this] (only [IMAGE_WIDTH] is
    read), the result is the content of [current_view] on return.  The
    divisions of [sub_range_x] and [sub_range_y] by the unsigned template
    sizes are unsigned divisions whose result is stored in an int. *)
Definition convert_view_to_view_template (vo : VisualOdometry)
    (current_view : list D) (view_rgb : list byte) (grayscale : bool)
    (X_RANGE_MIN X_RANGE_MAX Y_RANGE_MIN Y_RANGE_MAX : Z) : list D :=
  let TEMPLATE_Y_SIZE := 1 in
  let TEMPLATE_X_SIZE := to_uint32 (X_RANGE_MAX - X_RANGE_MIN) in
  let data_next := 0 in
  let current_view :=
    for_upto TEMPLATE_X_SIZE (fun i current_view => wr current_view i d0)
             current_view in
  let sub_range_x := X_RANGE_MAX - X_RANGE_MIN in
  let sub_range_y := Y_RANGE_MAX - Y_RANGE_MIN in
  let x_block_size := to_int32 (to_uint32 sub_range_x / TEMPLATE_X_SIZE) in
  let y_block_size := to_int32 (to_uint32 sub_range_y / TEMPLATE_Y_SIZE) in
  if grayscale then
    fst (block_loops
           (fun x y => let pos := x + y * IMAGE_WIDTH vo in
                       of_int (px view_rgb pos))
           (of_int 255)
           TEMPLATE_X_SIZE TEMPLATE_Y_SIZE X_RANGE_MIN Y_RANGE_MIN
           x_block_size y_block_size (current_view, data_next))
  else
    fst (block_loops
           (fun x y => let pos := (x + y * IMAGE_WIDTH vo) * 3 in
                       dadd (dadd (of_int (px view_rgb pos))
                                  (of_int (px view_rgb (pos + 1))))
                            (of_int (px view_rgb (pos + 2))))
           (dmul (of_int 255) (of_int 3))
           TEMPLATE_X_SIZE TEMPLATE_Y_SIZE X_RANGE_MIN Y_RANGE_MIN
           x_block_size y_block_size (current_view, data_next)).

(** ** The shift estimator *)

Definition slen : Z := 40.

(** The integer [cwl - offset]: the number of samples compared at a
    candidate offset, and what the sum is divided by. *)
Definition span (cwl offset : Z) : Z := cwl - offset.

(** The mean absolute difference of the first loop at [offset]:
    [data[k]] against [olddata[k + offset]]. *)
Definition cdiff_fst (data olddata : list D) (cwl offset : Z) : D :=
  let cdiff :=
    for_upto (span cwl offset) (fun k cdiff =>
      dadd cdiff (fabs (dsub (rd d0 data k) (rd d0 olddata (k + offset)))))
      d0 in
  ddiv cdiff (dmul (of_int 1) (of_int (span cwl offset))).

(** The mean absolute difference of the second loop at [offset]:
    [data[k + offset]] against [olddata[k]]. *)
Definition cdiff_snd (data olddata : list D) (cwl offset : Z) : D :=
  let cdiff :=
    for_upto (span cwl offset) (fun k cdiff =>
      dadd cdiff (fabs (dsub (rd d0 data (k + offset)) (rd d0 olddata k))))
      d0 in
  ddiv cdiff (dmul (of_int 1) (of_int (span cwl offset))).

(** [if (cdiff < mindiff) { mindiff = cdiff; minoffset = o; }].  The source
    keeps [minoffset] in a double that only ever holds the converted ints 0,
    [-offset] and [offset]; here it is kept as the int and converted where
    it is read. *)
Definition keep_min (cdiff : D) (o : Z) (st : D * Z) : D * Z :=
  let '(mindiff, minoffset) := st in
  if dlt cdiff mindiff then (cdiff, o) else (mindiff, minoffset).

(** The two search loops: [(mindiff, minoffset)] when they are done. *)
Definition search (data olddata : list D) (width : Z) : D * Z :=
  let mindiff := lit_1e6 in
  let minoffset := 0 in
  let cwl := width in
  let st :=
    for_upto slen (fun offset st =>
      keep_min (cdiff_fst data olddata cwl offset) (- offset) st)
      (mindiff, minoffset) in
  for_upto slen (fun offset st =>
    keep_min (cdiff_snd data olddata cwl offset) offset st) st.

(** [visual_odo (&profile[0], width, &prev_profile[0], vtrans_ms, vrot_rads)]
    on the buffers of region [p]: the instance on return and the values
    written to [*vtrans_ms] and [*vrot_rads]. *)
Definition visual_odo (vo : VisualOdometry) (p : profile_id) (width : Z)
  : VisualOdometry * (D * D) :=
  let data := profile p vo in
  let olddata := prev_profile p vo in
  let '(mindiff, minoffset) := search data olddata width in
  let olddata := copy_loop width data olddata in
  let vrot_rads :=
    ddiv (dmul (dmul (ddiv (dmul (of_int minoffset) (CAMERA_FOV_DEG vo))
                           (of_int (IMAGE_WIDTH vo)))
                     (CAMERA_HZ vo))
               M_PI)
         (of_int 180) in
  let vtrans_ms := dmul mindiff (VTRANS_SCALING vo) in
  let vtrans_ms :=
    if dlt (VTRANS_MAX vo) vtrans_ms then VTRANS_MAX vo else vtrans_ms in
  (set_prev_profile p olddata vo, (vtrans_ms, vrot_rads)).

(** ** [on_image] *)

(** The instance on return and the values left in the caller's slots
    [*vtrans_ms] and [*vrot_rads].  [image_width] and [image_height] are
    unsigned ints; the members they are assigned to are ints, so the
    assignment converts them. *)
Definition on_image (vo : VisualOdometry) (data : list byte) (greyscale : bool)
    (image_width image_height : Z) : VisualOdometry * (D * D) :=
  let vo := set_dims (to_int32 image_width) (to_int32 image_height) vo in
  let vo :=
    if first vo then
      let vo :=
        set_prev_profile VTRANS
          (copy_loop (Z.of_nat (length (vtrans_profile vo)))
                     (vtrans_profile vo) (vtrans_prev_profile vo)) vo in
      let vo :=
        set_prev_profile VROT
          (copy_loop (Z.of_nat (length (vrot_profile vo)))
                     (vrot_profile vo) (vrot_prev_profile vo)) vo in
      set_first false vo
    else vo in
  let vo :=
    set_profile VTRANS
      (convert_view_to_view_template vo (vtrans_profile vo) data greyscale
         (VTRANS_IMAGE_X_MIN vo) (VTRANS_IMAGE_X_MAX vo)
         (VTRANS_IMAGE_Y_MIN vo) (VTRANS_IMAGE_Y_MAX vo)) vo in
  let '(vo, (vtrans_ms, _)) :=
    visual_odo vo VTRANS (to_ushort (Z.of_nat (length (vtrans_profile vo)))) in
  let vo :=
    set_profile VROT
      (convert_view_to_view_template vo (vrot_profile vo) data greyscale
         (VROT_IMAGE_X_MIN vo) (VROT_IMAGE_X_MAX vo)
         (VROT_IMAGE_Y_MIN vo) (VROT_IMAGE_Y_MAX vo)) vo in
  let '(vo, (_, vrot_rads)) :=
    visual_odo vo VROT (to_ushort (Z.of_nat (length (vrot_profile vo)))) in
  (vo, (vtrans_ms, vrot_rads)).

End Program.

Arguments VisualOdometry D : clear implicits.

(** ** Definitions used to state the properties *)

(** The candidates of a call of [search] in the order the code evaluates
    them, each with the offset it would be recorded under: the first loop
    ([-o] for [o] = 0, ..., 39), then the second ([o] for [o] = 0, ..., 39). *)
Definition candidates {D : Type} {dbl : Double D}
    (data olddata : list D) (width : Z) : list (D * Z) :=
  map (fun o => (cdiff_fst data olddata width (Z.of_nat o), - Z.of_nat o))
      (seq 0 (Z.to_nat slen))
  ++ map (fun o => (cdiff_snd data olddata width (Z.of_nat o), Z.of_nat o))
         (seq 0 (Z.to_nat slen)).

(** The values of an int. *)
Definition is_int (z : Z) : Prop := - 2 ^ 31 <= z < 2 ^ 31.

(** The offsets at which a call of [search] evaluates a candidate. *)
Definition evaluated (offset : Z) : Prop := 0 <= offset < slen.

(** A region inside an image of [w] by [h] pixels, not empty. *)
Definition valid_region (w h x_min x_max y_min y_max : Z) : Prop :=
  0 <= x_min /\ x_min < x_max /\ x_max <= w /\
  0 <= y_min /\ y_min < y_max /\ y_max <= h.


(** The other region. *)
Definition other (p : profile_id) : profile_id :=
  match p with VTRANS => VROT | VROT => VTRANS end.

(** A loop body that only adds to the entry [dn] of the vector, between 0
    and [B] each time it runs. *)
Definition adds_at (dn : Z) (B : Q) (f : list Q -> list Q) : Prop :=
  forall cv,
    length (f cv) = length cv /\
    (forall j, j <> dn -> rd d0 (f cv) j = rd d0 cv j) /\
    (rd d0 cv dn <= rd d0 (f cv) dn <= rd d0 cv dn + B)%Q.

(** ** Definitions used to state further properties *)

(** What the extractor adds for the pixel in column [x] and row [y] of an
    image of width [w]: the byte of a greyscale image, the sum of the three
    bytes of an RGB image. *)
Definition pixel_value {D : Type} {dbl : Double D} (grayscale : bool)
    (w : Z) (view_rgb : list byte) (x y : Z) : D :=
  if grayscale then of_int (px view_rgb (x + y * w))
  else dadd (dadd (of_int (px view_rgb ((x + y * w) * 3)))
                  (of_int (px view_rgb ((x + y * w) * 3 + 1))))
            (of_int (px view_rgb ((x + y * w) * 3 + 2))).

(** The largest pixel value: 255.0 or 255.0 * 3.0. *)
Definition max_value {D : Type} {dbl : Double D} (grayscale : bool) : D :=
  if grayscale then of_int 255 else dmul (of_int 255) (of_int 3).

(** The mean of column [x] over the rows [y_min], ..., [y_min + h - 1]: the
    pixel values added from the top row down, starting from 0, the sum
    divided by the largest value and then by the number of rows. *)
Definition column_mean {D : Type} {dbl : Double D} (grayscale : bool)
    (w : Z) (view_rgb : list byte) (x y_min h : Z) : D :=
  ddiv (ddiv (for_upto h (fun k acc =>
                dadd acc (pixel_value grayscale w view_rgb x (y_min + k))) d0)
             (max_value grayscale))
       (of_int h).


(** The length of the pixel buffer of an image of [w] by [h] pixels. *)
Definition buffer_size (grayscale : bool) (w h : Z) : Z :=
  (if grayscale then 1 else 3) * w * h.

(** The resolved max bound of a region: what the constructor stores for a
    given [bound] when the instance holds the image dimension [dim]. *)
Definition resolved (bound dim : Z) : Z := if bound <? 0 then dim else bound.

(** An instance that is ready for frames of [w] by [h] pixels: both regions
    are valid for such a frame and less than 2^16 columns wide, the
    dimensions are ints, and the four buffers have the widths of their
    regions. *)
Definition ready {D : Type} (vo : VisualOdometry D) (w h : Z) : Prop :=
  valid_region w h (VTRANS_IMAGE_X_MIN vo) (VTRANS_IMAGE_X_MAX vo)
               (VTRANS_IMAGE_Y_MIN vo) (VTRANS_IMAGE_Y_MAX vo) /\
  valid_region w h (VROT_IMAGE_X_MIN vo) (VROT_IMAGE_X_MAX vo)
               (VROT_IMAGE_Y_MIN vo) (VROT_IMAGE_Y_MAX vo) /\
  w < 2 ^ 31 /\ h < 2 ^ 31 /\
  VTRANS_IMAGE_X_MAX vo - VTRANS_IMAGE_X_MIN vo < 2 ^ 16 /\
  VROT_IMAGE_X_MAX vo - VROT_IMAGE_X_MIN vo < 2 ^ 16 /\
  Z.of_nat (length (vtrans_profile vo))
    = VTRANS_IMAGE_X_MAX vo - VTRANS_IMAGE_X_MIN vo /\
  Z.of_nat (length (vtrans_prev_profile vo))
    = VTRANS_IMAGE_X_MAX vo - VTRANS_IMAGE_X_MIN vo /\
  Z.of_nat (length (vrot_profile vo))
    = VROT_IMAGE_X_MAX vo - VROT_IMAGE_X_MIN vo /\
  Z.of_nat (length (vrot_prev_profile vo))
    = VROT_IMAGE_X_MAX vo - VROT_IMAGE_X_MIN vo.

(** A profile with every entry between 0 and 1. *)
Definition unit_profile (l : list Q) : Prop :=
  Forall (fun v => (0 <= v <= 1)%Q) l.



(** The rational that a finite binary64 number is; 0 for an infinity or a
    NaN. *)
Definition Q_of_float (f : float) : Q :=
  match Prim2SF f with
  | S754_finite s m e =>
      let v := (inject_Z (Z.pos m) * Qpower 2 e)%Q in
      if s then (- v)%Q else v
  | _ => 0%Q
  end.

(** ** Sample inputs *)

(** A greyscale frame of 40 by 1 pixels: one white pixel (255), then 39
    grey ones (128). *)
Definition frame1 : list byte := xff :: repeat x80 39.


(** An instance as the constructor leaves it for two full-frame regions of a
    40 by 1 image, a field of view of [fov] degrees, 10 Hz, a scaling of 100
    and a ceiling of 20. *)
Definition fresh_vo {D : Type} {dbl : Double D} (fov : Z) : VisualOdometry D :=
  {| IMAGE_HEIGHT := 1; IMAGE_WIDTH := 40;
     VTRANS_IMAGE_X_MIN := 0; VTRANS_IMAGE_X_MAX := 40;
     VTRANS_IMAGE_Y_MIN := 0; VTRANS_IMAGE_Y_MAX := 1;
     VROT_IMAGE_X_MIN := 0; VROT_IMAGE_X_MAX := 40;
     VROT_IMAGE_Y_MIN := 0; VROT_IMAGE_Y_MAX := 1;
     CAMERA_FOV_DEG := of_int fov; CAMERA_HZ := of_int 10;
     VTRANS_SCALING := of_int 100; VTRANS_MAX := of_int 20;
     vtrans_profile := repeat d0 40; vrot_profile := repeat d0 40;
     vtrans_prev_profile := repeat d0 40; vrot_prev_profile := repeat d0 40;
     first := true |}.

(** A profile of 40 entries: 1, then 39 times 1/2. *)
Definition step_profile {D : Type} {dbl : Double D} : list D :=
  of_int 1 :: repeat (ddiv (of_int 1) (of_int 2)) 39.

(** A profile of 40 entries, all 1/2. *)
Definition flat_profile {D : Type} {dbl : Double D} : list D :=
  repeat (ddiv (of_int 1) (of_int 2)) 40.

(** A profile of 40 entries: 39 times 1/2, then 0. *)
Definition tail_profile {D : Type} {dbl : Double D} : list D :=
  repeat (ddiv (of_int 1) (of_int 2)) 39 ++ [d0].

(** An instance for frames of [w] by 1 pixels with two full-frame regions,
    a field of view of [fov] degrees, 10 Hz, a scaling of 100 and a ceiling
    of 20, holding [cur] as both current profiles and [prev] as both
    previous profiles, after its first frame. *)
Definition plain_vo {D : Type} {dbl : Double D} (w fov : Z)
    (cur prev : list D) : VisualOdometry D :=
  {| IMAGE_HEIGHT := 1; IMAGE_WIDTH := w;
     VTRANS_IMAGE_X_MIN := 0; VTRANS_IMAGE_X_MAX := w;
     VTRANS_IMAGE_Y_MIN := 0; VTRANS_IMAGE_Y_MAX := 1;
     VROT_IMAGE_X_MIN := 0; VROT_IMAGE_X_MAX := w;
     VROT_IMAGE_Y_MIN := 0; VROT_IMAGE_Y_MAX := 1;
     CAMERA_FOV_DEG := of_int fov; CAMERA_HZ := of_int 10;
     VTRANS_SCALING := of_int 100; VTRANS_MAX := of_int 20;
     vtrans_profile := cur; vrot_profile := cur;
     vtrans_prev_profile := prev; vrot_prev_profile := prev;
     first := false |}.


(** A profile of 80 entries: 1, then 79 zeros. *)
Definition spike_first {D : Type} {dbl : Double D} : list D :=
  of_int 1 :: repeat d0 79.

(** A profile of 80 entries: 39 zeros, 1, then 40 zeros. *)
Definition spike_middle {D : Type} {dbl : Double D} : list D :=
  repeat d0 39 ++ of_int 1 :: repeat d0 40.

(** ** Loops and vectors: basic facts *)

Lemma for_upto_nonpos {S : Type} (n : Z) (body : Z -> S -> S) (s : S) :
  n <= 0 -> for_upto n body s = s.
Proof.
  intros Hn. unfold for_upto.
  replace (Z.to_nat n) with O by lia. reflexivity.
Qed.

Lemma for_upto_succ {S : Type} (n : Z) (body : Z -> S -> S) (s : S) :
  0 <= n -> for_upto (n + 1) body s = body n (for_upto n body s).
Proof.
  intros Hn. unfold for_upto.
  replace (Z.to_nat (n + 1)) with (Z.to_nat n + 1)%nat by lia.
  rewrite seq_app, fold_left_app. simpl.
  rewrite Z2Nat.id by assumption. reflexivity.
Qed.

(** The invariant rule of the counting loop. *)
Lemma for_upto_inv {S : Type} (P : Z -> S -> Prop) (n : Z)
    (body : Z -> S -> S) (s : S) :
  0 <= n ->
  P 0 s ->
  (forall i t, 0 <= i < n -> P i t -> P (i + 1) (body i t)) ->
  P n (for_upto n body s).
Proof.
  intros Hn H0 Hstep.
  rewrite <- (Z2Nat.id n) by assumption.
  assert (Hle : (Z.to_nat n <= Z.to_nat n)%nat) by lia.
  revert Hle. generalize (Z.to_nat n) at 1 3 4 as m.
  induction m as [|m IH]; intros Hle.
  - simpl. rewrite for_upto_nonpos by lia. exact H0.
  - rewrite Nat2Z.inj_succ. unfold Z.succ.
    rewrite for_upto_succ by lia.
    apply Hstep; [lia | apply IH; lia].
Qed.

Lemma upd_length {A : Type} (l : list A) (n : nat) (v : A) :
  length (upd l n v) = length l.
Proof.
  revert n; induction l as [|h t IH]; intros [|n]; simpl; auto.
Qed.

Lemma nth_upd_same {A : Type} (l : list A) (n : nat) (v d : A) :
  (n < length l)%nat -> nth n (upd l n v) d = v.
Proof.
  revert n; induction l as [|h t IH]; intros [|n] Hn; simpl in *;
    try lia; auto.
  apply IH; lia.
Qed.

Lemma nth_upd_other {A : Type} (l : list A) (n m : nat) (v d : A) :
  n <> m -> nth m (upd l n v) d = nth m l d.
Proof.
  revert n m; induction l as [|h t IH]; intros [|n] [|m] Hnm; simpl;
    try congruence; auto.
Qed.

Lemma wr_length {A : Type} (l : list A) (i : Z) (v : A) :
  length (wr l i v) = length l.
Proof.
  unfold wr. destruct (i <? 0); [reflexivity | apply upd_length].
Qed.

Lemma rd_wr_same {A : Type} (d : A) (l : list A) (i : Z) (v : A) :
  0 <= i < Z.of_nat (length l) -> rd d (wr l i v) i = v.
Proof.
  intros Hi. unfold rd, wr.
  destruct (Z.ltb_spec i 0); [lia|].
  apply nth_upd_same. lia.
Qed.

Lemma rd_wr_other {A : Type} (d : A) (l : list A) (i j : Z) (v : A) :
  i <> j -> rd d (wr l i v) j = rd d l j.
Proof.
  intros Hij. unfold rd, wr.
  destruct (Z.ltb_spec j 0); [reflexivity|].
  destruct (Z.ltb_spec i 0); [reflexivity|].
  apply nth_upd_other. lia.
Qed.

(** Two vectors of one length with the same elements are equal. *)
Lemma rd_ext {A : Type} (d : A) (l1 l2 : list A) :
  length l1 = length l2 ->
  (forall i, 0 <= i < Z.of_nat (length l1) -> rd d l1 i = rd d l2 i) ->
  l1 = l2.
Proof.
  intros Hlen Hrd. apply (nth_ext l1 l2 d d Hlen).
  intros n Hn. specialize (Hrd (Z.of_nat n)).
  unfold rd in Hrd.
  destruct (Z.ltb_spec (Z.of_nat n) 0); [lia|].
  rewrite Nat2Z.id in Hrd. apply Hrd. lia.
Qed.

Lemma upd_nth_id {A : Type} (d : A) (l : list A) (n : nat) :
  upd l n (nth n l d) = l.
Proof.
  revert n; induction l as [|h t IH]; intros [|n]; simpl; auto.
  now rewrite IH.
Qed.

Lemma wr_rd_id {A : Type} (d : A) (l : list A) (i : Z) :
  wr l i (rd d l i) = l.
Proof.
  unfold wr, rd. destruct (i <? 0); [reflexivity | apply upd_nth_id].
Qed.

(** An int difference that is not negative and fits an int is not changed
    by the wrap-around. *)
Lemma int_width_small (z : Z) : 0 <= z < 2 ^ 31 -> to_int32 z = z.
Proof.
  intros Hz. unfold to_int32. rewrite Z.mod_small by lia. lia.
Qed.

Section Generic.

Context {D : Type} {dbl : Double D}.

(** ** The copy loop *)

Lemma copy_loop_spec (n : Z) (src dst : list D) :
  0 <= n <= Z.of_nat (length dst) ->
  length (copy_loop n src dst) = length dst /\
  forall j, rd d0 (copy_loop n src dst) j
            = if j <? n then rd d0 src j else rd d0 dst j.
Proof.
  intros Hn. unfold copy_loop.
  apply (for_upto_inv
           (fun i t => length t = length dst /\
                       forall j, rd d0 t j
                                 = if j <? i then rd d0 src j else rd d0 dst j)).
  - lia.
  - split; [reflexivity|]. intros j.
    destruct (Z.ltb_spec j 0); [|reflexivity].
    unfold rd. destruct (Z.ltb_spec j 0); [reflexivity | lia].
  - intros i t Hi [Hlen Hrd]. split; [now rewrite wr_length|].
    intros j. destruct (Z.eq_dec i j) as [->|Hij].
    + rewrite rd_wr_same by lia.
      destruct (Z.ltb_spec j (j + 1)); [reflexivity | lia].
    + rewrite rd_wr_other by assumption. rewrite Hrd.
      destruct (Z.ltb_spec j i), (Z.ltb_spec j (i + 1)); try reflexivity; lia.
Qed.

(** Copying a whole vector over one of the same length gives the vector. *)
Lemma copy_loop_all (src dst : list D) :
  length dst = length src ->
  copy_loop (Z.of_nat (length src)) src dst = src.
Proof.
  intros Hlen.
  destruct (copy_loop_spec (Z.of_nat (length src)) src dst) as [Hl Hrd];
    [lia|].
  apply (rd_ext d0); [congruence|].
  intros i Hi. rewrite Hrd.
  destruct (Z.ltb_spec i (Z.of_nat (length src))); [reflexivity|].
  rewrite Hl, Hlen in Hi. lia.
Qed.

(** Copying a vector over itself changes nothing, whatever the count. *)
Lemma copy_loop_self (n : Z) (l : list D) : copy_loop n l l = l.
Proof.
  destruct (Z.le_gt_cases n 0) as [Hn|Hn].
  - unfold copy_loop. now apply for_upto_nonpos.
  - unfold copy_loop.
    apply (for_upto_inv (fun _ t => t = l)); [lia | reflexivity |].
    intros i t _ ->. apply wr_rd_id.
Qed.

(** ** Construction *)

(** C2, as amended.  The arguments and the two members being ints: a max
    bound below 0 is resolved to the value that the member [IMAGE_WIDTH]
    (for x) or [IMAGE_HEIGHT] (for y) holds when the constructor runs, a max
    bound of 0 or more is kept as given, and, when the resolved widths
    [x_max - x_min] of the two regions are not negative and fit an int, the
    constructor returns with the four profile buffers of those widths. *)
Theorem ctor_resolves_negative_max
    (image_width_member image_height_member : Z)
    (vtrans_image_x_min vtrans_image_x_max
     vtrans_image_y_min vtrans_image_y_max
     vrot_image_x_min vrot_image_x_max
     vrot_image_y_min vrot_image_y_max : Z)
    (camera_fov_deg camera_hz vtrans_scaling vtrans_max : D) :
  is_int image_width_member -> is_int image_height_member ->
  is_int vtrans_image_x_min -> is_int vtrans_image_x_max ->
  is_int vtrans_image_y_min -> is_int vtrans_image_y_max ->
  is_int vrot_image_x_min -> is_int vrot_image_x_max ->
  is_int vrot_image_y_min -> is_int vrot_image_y_max ->
  0 <= (if vtrans_image_x_max <? 0 then image_width_member
        else vtrans_image_x_max) - vtrans_image_x_min < 2 ^ 31 ->
  0 <= (if vrot_image_x_max <? 0 then image_width_member
        else vrot_image_x_max) - vrot_image_x_min < 2 ^ 31 ->
  exists vo,
    VisualOdometry_ctor image_width_member image_height_member
      vtrans_image_x_min vtrans_image_x_max
      vtrans_image_y_min vtrans_image_y_max
      vrot_image_x_min vrot_image_x_max
      vrot_image_y_min vrot_image_y_max
      camera_fov_deg camera_hz vtrans_scaling vtrans_max = Some vo /\
    (vtrans_image_x_max < 0 -> VTRANS_IMAGE_X_MAX vo = image_width_member) /\
    (0 <= vtrans_image_x_max -> VTRANS_IMAGE_X_MAX vo = vtrans_image_x_max) /\
    (vtrans_image_y_max < 0 -> VTRANS_IMAGE_Y_MAX vo = image_height_member) /\
    (0 <= vtrans_image_y_max -> VTRANS_IMAGE_Y_MAX vo = vtrans_image_y_max) /\
    (vrot_image_x_max < 0 -> VROT_IMAGE_X_MAX vo = image_width_member) /\
    (0 <= vrot_image_x_max -> VROT_IMAGE_X_MAX vo = vrot_image_x_max) /\
    (vrot_image_y_max < 0 -> VROT_IMAGE_Y_MAX vo = image_height_member) /\
    (0 <= vrot_image_y_max -> VROT_IMAGE_Y_MAX vo = vrot_image_y_max) /\
    Z.of_nat (length (vtrans_profile vo))
      = VTRANS_IMAGE_X_MAX vo - VTRANS_IMAGE_X_MIN vo /\
    Z.of_nat (length (vtrans_prev_profile vo))
      = VTRANS_IMAGE_X_MAX vo - VTRANS_IMAGE_X_MIN vo /\
    Z.of_nat (length (vrot_profile vo))
      = VROT_IMAGE_X_MAX vo - VROT_IMAGE_X_MIN vo /\
    Z.of_nat (length (vrot_prev_profile vo))
      = VROT_IMAGE_X_MAX vo - VROT_IMAGE_X_MIN vo /\
    first vo = true.
Proof.
  intros _ _ _ _ _ _ _ _ _ _ Ht Hr. unfold VisualOdometry_ctor, resize.
  rewrite (int_width_small _ Ht), (int_width_small _ Hr).
  destruct (Z.ltb_spec
              ((if vtrans_image_x_max <? 0 then image_width_member
                else vtrans_image_x_max) - vtrans_image_x_min) 0) as [Hc|Hc];
    [lia|].
  destruct (Z.ltb_spec
              ((if vrot_image_x_max <? 0 then image_width_member
                else vrot_image_x_max) - vrot_image_x_min) 0) as [Hc'|Hc'];
    [lia|].
  eexists. split; [reflexivity|]. simpl.
  rewrite !repeat_length.
  destruct (Z.ltb_spec vtrans_image_x_max 0),
           (Z.ltb_spec vtrans_image_y_max 0),
           (Z.ltb_spec vrot_image_x_max 0),
           (Z.ltb_spec vrot_image_y_max 0);
    repeat split; intros; try reflexivity; try lia.
Qed.

(** ** The shift estimator: the span of a candidate *)

(** C3, as amended.  When the profile is at least as long as the search
    radius (40), the span [cwl - offset] that the sum is divided by is
    positive at every evaluated offset. *)
Theorem span_positive (width offset : Z) :
  slen <= width -> evaluated offset -> 0 < span width offset.
Proof.
  unfold evaluated, span, slen. lia.
Qed.

(** ** The shift estimator: what [visual_odo] changes *)

(** C8, as amended.  After [visual_odo] on the buffers of a region with a
    width that does not exceed their lengths, the first [width] entries of
    the previous profile are those of the current profile and the rest of
    the previous profile is as it was; when the width is the length of
    both, the previous profile is the current profile, element by element.
    The current profile is as it was, and so is every other member. *)
Theorem visual_odo_copies_width (vo : VisualOdometry D) (p : profile_id)
    (width : Z) :
  0 <= width <= Z.of_nat (length (profile p vo)) ->
  width <= Z.of_nat (length (prev_profile p vo)) ->
  let vo' := fst (visual_odo vo p width) in
  (forall j, 0 <= j < width ->
             rd d0 (prev_profile p vo') j = rd d0 (profile p vo) j) /\
  (forall j, width <= j ->
             rd d0 (prev_profile p vo') j = rd d0 (prev_profile p vo) j) /\
  length (prev_profile p vo') = length (prev_profile p vo) /\
  (width = Z.of_nat (length (profile p vo)) ->
   length (prev_profile p vo) = length (profile p vo) ->
   prev_profile p vo' = profile p vo) /\
  profile p vo' = profile p vo /\
  profile (other p) vo' = profile (other p) vo /\
  prev_profile (other p) vo' = prev_profile (other p) vo /\
  first vo' = first vo /\
  IMAGE_WIDTH vo' = IMAGE_WIDTH vo /\ IMAGE_HEIGHT vo' = IMAGE_HEIGHT vo /\
  VTRANS_IMAGE_X_MIN vo' = VTRANS_IMAGE_X_MIN vo /\
  VTRANS_IMAGE_X_MAX vo' = VTRANS_IMAGE_X_MAX vo /\
  VTRANS_IMAGE_Y_MIN vo' = VTRANS_IMAGE_Y_MIN vo /\
  VTRANS_IMAGE_Y_MAX vo' = VTRANS_IMAGE_Y_MAX vo /\
  VROT_IMAGE_X_MIN vo' = VROT_IMAGE_X_MIN vo /\
  VROT_IMAGE_X_MAX vo' = VROT_IMAGE_X_MAX vo /\
  VROT_IMAGE_Y_MIN vo' = VROT_IMAGE_Y_MIN vo /\
  VROT_IMAGE_Y_MAX vo' = VROT_IMAGE_Y_MAX vo /\
  CAMERA_FOV_DEG vo' = CAMERA_FOV_DEG vo /\ CAMERA_HZ vo' = CAMERA_HZ vo /\
  VTRANS_SCALING vo' = VTRANS_SCALING vo /\ VTRANS_MAX vo' = VTRANS_MAX vo.
Proof.
  intros Hw Hwp vo'. subst vo'. unfold visual_odo.
  destruct (search (profile p vo) (prev_profile p vo) width)
    as [mindiff minoffset].
  cbn [fst].
  destruct (copy_loop_spec width (profile p vo) (prev_profile p vo))
    as [Hlen Hrd]; [lia|].
  assert (Hprev : prev_profile p
                    (set_prev_profile p
                       (copy_loop width (profile p vo) (prev_profile p vo)) vo)
                  = copy_loop width (profile p vo) (prev_profile p vo))
    by (destruct p; reflexivity).
  rewrite Hprev.
  split.
  { intros j Hj. rewrite Hrd.
    destruct (Z.ltb_spec j width); [reflexivity | lia]. }
  split.
  { intros j Hj. rewrite Hrd.
    destruct (Z.ltb_spec j width); [lia | reflexivity]. }
  split; [exact Hlen|].
  split.
  { intros -> Hl. apply copy_loop_all. exact Hl. }
  destruct p; cbn; repeat split; reflexivity.
Qed.

End Generic.

Section Estimator.

Context {D : Type} {dbl : Double D}.

(** ** The shift estimator: the search *)

Lemma fold_left_map_gen {A B C : Type} (f : A -> C -> A) (g : B -> C)
    (l : list B) (a : A) :
  fold_left f (map g l) a = fold_left (fun a x => f a (g x)) l a.
Proof.
  revert a; induction l as [|x l IH]; intros a; simpl; auto.
Qed.

(** The two loops of [search] are one left-to-right pass over
    [candidates]. *)
Lemma search_candidates (data olddata : list D) (width : Z) :
  search data olddata width
  = fold_left (fun st c => keep_min (fst c) (snd c) st)
              (candidates data olddata width) (lit_1e6, 0).
Proof.
  unfold search, candidates, for_upto.
  rewrite fold_left_app, !fold_left_map_gen. reflexivity.
Qed.

Lemma candidates_offsets (data olddata : list D) (width : Z) :
  map snd (candidates data olddata width)
  = map (fun o => - Z.of_nat o) (seq 0 40) ++ map Z.of_nat (seq 0 40).
Proof.
  unfold candidates. rewrite map_app, !map_map. reflexivity.
Qed.

Lemma keep_min_no_replace (c : D) (o : Z) (st : D * Z) :
  dlt c (fst st) = false -> keep_min c o st = st.
Proof.
  destruct st as [m off]. simpl. intros ->. reflexivity.
Qed.

Lemma keep_min_replace (c : D) (o : Z) (st : D * Z) :
  dlt c (fst st) = true -> keep_min c o st = (c, o).
Proof.
  destruct st as [m off]. simpl. intros ->. reflexivity.
Qed.

(** What holds of the start value and of every candidate holds of the
    recorded minimum. *)
Lemma fold_keep_min_pick (P : D -> Prop) (l : list (D * Z)) (st : D * Z) :
  P (fst st) -> Forall (fun x => P (fst x)) l ->
  P (fst (fold_left (fun st c => keep_min (fst c) (snd c) st) l st)).
Proof.
  revert st; induction l as [|[c o] l IH]; intros [m off] Hst Hl; simpl.
  - exact Hst.
  - inversion Hl as [|? ? Hc Hl']; subst. apply IH; [|assumption].
    simpl in *. destruct (dlt c m); assumption.
Qed.

(** Candidates that are not below the recorded minimum leave it, and its
    offset, as they are. *)
Lemma fold_keep_min_stay (l : list (D * Z)) (c : D) (o : Z) :
  Forall (fun x => dlt (fst x) c = false) l ->
  fold_left (fun st c => keep_min (fst c) (snd c) st) l (c, o) = (c, o).
Proof.
  induction l as [|[c' o'] l IH]; intros Hl; simpl.
  - reflexivity.
  - inversion Hl as [|? ? Hc Hl']; subst. simpl in Hc. rewrite Hc.
    apply IH. assumption.
Qed.

Lemma fold_keep_min_first (l1 l2 : list (D * Z)) (c : D) (o : Z)
    (st : D * Z) :
  dlt c (fst st) = true ->
  Forall (fun x => dlt c (fst x) = true) l1 ->
  Forall (fun x => dlt (fst x) c = false) l2 ->
  fold_left (fun st c => keep_min (fst c) (snd c) st)
            (l1 ++ (c, o) :: l2) st = (c, o).
Proof.
  intros Hst H1 H2. rewrite fold_left_app. simpl.
  rewrite keep_min_replace.
  - apply fold_keep_min_stay. assumption.
  - apply (fold_keep_min_pick (fun m => dlt c m = true)); assumption.
Qed.

(** C5.  The winning offset is decided by strict less-than.  The candidates
    are evaluated in the order of [candidates]: the whole first loop, with
    the offsets recorded as [-o], then the whole second loop, with the
    offsets recorded as [o].  A candidate that is not below the recorded
    minimum replaces neither the minimum nor its offset, and one that is
    below replaces both.  So the first candidate that achieves the minimum
    (below the start value 1e6, below every candidate before it, with no
    candidate after it below it) is the one recorded. *)
Theorem first_minimum_wins (data olddata : list D) (width : Z) :
  search data olddata width
  = fold_left (fun st c => keep_min (fst c) (snd c) st)
              (candidates data olddata width) (lit_1e6, 0) /\
  map snd (candidates data olddata width)
  = map (fun o => - Z.of_nat o) (seq 0 40) ++ map Z.of_nat (seq 0 40) /\
  (forall c o st, dlt c (fst st) = false -> keep_min c o st = st) /\
  (forall c o st, dlt c (fst st) = true -> keep_min c o st = (c, o)) /\
  (forall l1 c o l2,
      candidates data olddata width = l1 ++ (c, o) :: l2 ->
      dlt c lit_1e6 = true ->
      Forall (fun x => dlt c (fst x) = true) l1 ->
      Forall (fun x => dlt (fst x) c = false) l2 ->
      search data olddata width = (c, o)).
Proof.
  split; [apply search_candidates|].
  split; [apply candidates_offsets|].
  split; [exact keep_min_no_replace|].
  split; [exact keep_min_replace|].
  intros l1 c o l2 Hc Hinit H1 H2.
  rewrite search_candidates, Hc.
  apply fold_keep_min_first; assumption.
Qed.

(** The recorded offset is one of -39, ..., 39. *)
Lemma search_offset_bound (data olddata : list D) (width : Z) :
  - 39 <= snd (search data olddata width) <= 39.
Proof.
  rewrite search_candidates.
  assert (Hc : Forall (fun x : D * Z => - 39 <= snd x <= 39)
                      (candidates data olddata width)).
  { rewrite Forall_forall. intros x Hx.
    apply (in_map snd) in Hx. rewrite candidates_offsets in Hx.
    apply in_app_or in Hx. destruct Hx as [Hx|Hx];
      apply in_map_iff in Hx; destruct Hx as [n [<- Hn]];
      apply in_seq in Hn; lia. }
  assert (H0 : - 39 <= snd (lit_1e6, 0) <= 39) by (simpl; lia).
  revert H0. generalize (lit_1e6, 0) as st. revert Hc.
  generalize (candidates data olddata width) as l.
  induction l as [|[c o] l IH]; intros Hl [m off] Hst; simpl.
  - exact Hst.
  - inversion Hl as [|? ? Hc Hl']; subst.
    apply IH; [assumption|]. simpl in *. destruct (dlt c m); assumption.
Qed.

(** What [visual_odo] returns, in terms of the result of the search. *)
Lemma visual_odo_unfold (vo : VisualOdometry D) (p : profile_id) (width : Z) :
  let st := search (profile p vo) (prev_profile p vo) width in
  let vtrans_ms := dmul (fst st) (VTRANS_SCALING vo) in
  visual_odo vo p width
  = (set_prev_profile p
       (copy_loop width (profile p vo) (prev_profile p vo)) vo,
     (if dlt (VTRANS_MAX vo) vtrans_ms then VTRANS_MAX vo else vtrans_ms,
      ddiv (dmul (dmul (ddiv (dmul (of_int (snd st)) (CAMERA_FOV_DEG vo))
                             (of_int (IMAGE_WIDTH vo)))
                       (CAMERA_HZ vo))
                 M_PI)
           (of_int 180))).
Proof.
  cbv zeta. unfold visual_odo.
  destruct (search (profile p vo) (prev_profile p vo) width) as [m off].
  reflexivity.
Qed.

(** C6.  The rotational rate that [visual_odo] writes is the winning offset
    times [CAMERA_FOV_DEG], divided by [IMAGE_WIDTH], times [CAMERA_HZ],
    times [M_PI], divided by 180, the operations taken from left to
    right. *)
Theorem visual_odo_vrot_rads (vo : VisualOdometry D) (p : profile_id)
    (width : Z) :
  snd (snd (visual_odo vo p width))
  = let minoffset :=
      of_int (snd (search (profile p vo) (prev_profile p vo) width)) in
    ddiv (dmul (dmul (ddiv (dmul minoffset (CAMERA_FOV_DEG vo))
                           (of_int (IMAGE_WIDTH vo)))
                     (CAMERA_HZ vo))
               M_PI)
         (of_int 180).
Proof.
  rewrite visual_odo_unfold. reflexivity.
Qed.

End Estimator.

(** ** The clamp of the translational speed *)

Section Clamp.

Context {D : Type} {dbl : Double D}.

(** Whatever the numbers are, as long as nothing is below itself, the speed
    that [visual_odo] writes is not above [VTRANS_MAX]. *)
Lemma visual_odo_vtrans_not_above (vo : VisualOdometry D) (p : profile_id)
    (width : Z) :
  (forall x : D, dlt x x = false) ->
  dlt (VTRANS_MAX vo) (fst (snd (visual_odo vo p width))) = false.
Proof.
  intros Hirr. unfold visual_odo.
  destruct (search (profile p vo) (prev_profile p vo) width) as [m off].
  cbn [fst snd].
  destruct (dlt (VTRANS_MAX vo) (dmul m (VTRANS_SCALING vo))) eqn:E.
  - apply Hirr.
  - exact E.
Qed.

(** The speed that [on_image] leaves in its slot is the one written by
    [visual_odo] on the translation region, on an instance with the same
    [VTRANS_MAX]. *)
Lemma on_image_vtrans (vo : VisualOdometry D) (data : list byte)
    (greyscale : bool) (image_width image_height : Z) :
  exists vo1 width,
    VTRANS_MAX vo1 = VTRANS_MAX vo /\
    fst (snd (on_image vo data greyscale image_width image_height))
    = fst (snd (visual_odo vo1 VTRANS width)).
Proof.
  unfold on_image.
  match goal with
  | |- context [visual_odo ?v VTRANS ?w] => exists v, w
  end.
  split.
  - destruct (first (set_dims _ _ vo)); reflexivity.
  - match goal with
    | |- context [visual_odo ?v VTRANS ?w] =>
        destruct (visual_odo v VTRANS w) as [vo2 [vt dummy]]
    end.
    match goal with
    | |- context [visual_odo ?v VROT ?w] =>
        destruct (visual_odo v VROT w) as [vo3 [dummy' vr]]
    end.
    reflexivity.
Qed.

End Clamp.

Lemma ltb_irrefl (x : float) : PrimFloat.ltb x x = false.
Proof.
  rewrite ltb_spec. unfold SFltb, SFcompare.
  destruct (Prim2SF x) as [s|s| |s m e]; try destruct s; try reflexivity;
    rewrite Z.compare_refl, Pos.compare_cont_refl; reflexivity.
Qed.

(** In binary64 the speed left by [on_image] is never above the ceiling. *)
Lemma on_image_vtrans_not_above_binary64 (vo : VisualOdometry float)
    (data : list byte) (greyscale : bool) (image_width image_height : Z) :
  PrimFloat.ltb (VTRANS_MAX vo)
    (fst (snd (on_image vo data greyscale image_width image_height))) = false.
Proof.
  destruct (on_image_vtrans vo data greyscale image_width image_height)
    as [vo1 [width [Hmax ->]]].
  rewrite <- Hmax.
  exact (visual_odo_vtrans_not_above vo1 VTRANS width ltb_irrefl).
Qed.

Lemma Qltb_lt (a b : Q) : Qltb a b = true <-> (a < b)%Q.
Proof.
  unfold Qltb. rewrite negb_true_iff.
  split.
  - intros H. apply Qnot_le_lt. intros Hle.
    apply Qle_bool_iff in Hle. congruence.
  - intros H. destruct (Qle_bool b a) eqn:E; [|reflexivity].
    apply Qle_bool_iff in E. exfalso. apply (Qlt_not_le _ _ H E).
Qed.

Lemma Qltb_ge (a b : Q) : Qltb a b = false <-> (b <= a)%Q.
Proof.
  unfold Qltb. rewrite negb_false_iff. apply Qle_bool_iff.
Qed.

(** In exact arithmetic the speed left by [on_image] is at most the
    ceiling. *)
Lemma on_image_vtrans_le_max_exact (vo : VisualOdometry Q) (data : list byte)
    (greyscale : bool) (image_width image_height : Z) :
  (fst (snd (on_image vo data greyscale image_width image_height))
   <= VTRANS_MAX vo)%Q.
Proof.
  destruct (on_image_vtrans vo data greyscale image_width image_height)
    as [vo1 [width [Hmax ->]]].
  rewrite <- Hmax.
  apply Qltb_ge.
  refine (visual_odo_vtrans_not_above vo1 VTRANS width _).
  intros x. apply Qltb_ge. apply Qle_refl.
Qed.

(** ** Comparisons of binary64 *)

Lemma SFcompare_swap (a b : spec_float) :
  SFcompare b a
  = match SFcompare a b with Some c => Some (CompOpp c) | None => None end.
Proof.
  assert (Hm : forall p q,
             Pos.compare_cont Eq q p = CompOpp (Pos.compare_cont Eq p q)).
  { intros p q. rewrite (Pos.compare_cont_antisym p q Eq). reflexivity. }
  destruct a as [sa|sa| |sa ma ea], b as [sb|sb| |sb mb eb];
    try destruct sa; try destruct sb; try reflexivity;
    cbn [SFcompare]; rewrite (Z.compare_antisym ea eb), (Hm ma mb);
    destruct (ea ?= eb); cbn [CompOpp]; try reflexivity;
    destruct (Pos.compare_cont Eq ma mb); reflexivity.
Qed.

Lemma not_nan_compare (x : float) :
  PrimFloat.is_nan x = false ->
  SFcompare (Prim2SF x) (Prim2SF x) = Some Eq.
Proof.
  unfold PrimFloat.is_nan. rewrite negb_false_iff, eqb_spec. unfold SFeqb.
  destruct (SFcompare (Prim2SF x) (Prim2SF x)) as [[| |]|];
    try discriminate. reflexivity.
Qed.

Lemma compare_defined (a b : spec_float) :
  SFcompare a a = Some Eq -> SFcompare b b = Some Eq ->
  SFcompare a b <> None.
Proof.
  destruct a as [sa|sa| |sa ma ea], b as [sb|sb| |sb mb eb];
    cbn [SFcompare]; try discriminate.
Qed.

(** For operands that are not NaN, [x <= y] holds when [y < x] does not. *)
Lemma leb_of_not_ltb (x y : float) :
  PrimFloat.is_nan x = false -> PrimFloat.is_nan y = false ->
  PrimFloat.ltb y x = false -> PrimFloat.leb x y = true.
Proof.
  intros Hx Hy. rewrite ltb_spec, leb_spec. unfold SFltb, SFleb.
  pose proof (compare_defined _ _ (not_nan_compare x Hx) (not_nan_compare y Hy))
    as Hdef.
  rewrite (SFcompare_swap (Prim2SF x) (Prim2SF y)).
  destruct (SFcompare (Prim2SF x) (Prim2SF y)) as [[| |]|];
    cbn; congruence.
Qed.

(** C7, as amended.  For every image and every instance, the translational
    speed that [on_image] leaves in its slot is never greater than
    [VTRANS_MAX]: in exact arithmetic it is less than or equal to
    [VTRANS_MAX]; in binary64 the comparison "ceiling < speed" is false, and
    the speed is less than or equal to [VTRANS_MAX] whenever neither of the
    two is a NaN. *)
Theorem on_image_vtrans_clamped :
  (forall (vo : VisualOdometry Q) (data : list byte) (greyscale : bool)
          (image_width image_height : Z),
      (fst (snd (on_image vo data greyscale image_width image_height))
       <= VTRANS_MAX vo)%Q) /\
  (forall (vo : VisualOdometry float) (data : list byte) (greyscale : bool)
          (image_width image_height : Z),
      let out :=
        fst (snd (on_image vo data greyscale image_width image_height)) in
      PrimFloat.ltb (VTRANS_MAX vo) out = false /\
      (PrimFloat.is_nan (VTRANS_MAX vo) = false ->
       PrimFloat.is_nan out = false ->
       PrimFloat.leb out (VTRANS_MAX vo) = true)).
Proof.
  split; [exact on_image_vtrans_le_max_exact|].
  intros vo data greyscale image_width image_height. cbv zeta.
  pose proof (on_image_vtrans_not_above_binary64 vo data greyscale
                image_width image_height) as Hlt.
  split; [exact Hlt|].
  intros Hm Ho. apply leb_of_not_ltb; [exact Ho | exact Hm | exact Hlt].
Qed.

(** ** The bound on the rotational rate *)

Lemma Qabs_inject_Z_le (z b : Z) :
  - b <= z <= b -> (Qabs (inject_Z z) <= inject_Z b)%Q.
Proof.
  intros Hz. unfold Qle, inject_Z, Qabs. simpl. lia.
Qed.

Lemma M_PI_pos : (0 < M_PI (D := Q))%Q.
Proof. reflexivity. Qed.

(** In exact arithmetic, the rate written by [visual_odo] on an instance
    with a positive [IMAGE_WIDTH]. *)
Lemma visual_odo_vrot_abs (vo : VisualOdometry Q) (p : profile_id)
    (width : Z) :
  0 < IMAGE_WIDTH vo ->
  (Qabs (snd (snd (visual_odo vo p width)))
   <= 39 * Qabs (CAMERA_FOV_DEG vo) * Qabs (CAMERA_HZ vo) * M_PI
      / (180 * inject_Z (IMAGE_WIDTH vo)))%Q.
Proof.
  intros Hw. rewrite visual_odo_unfold. cbv zeta. cbn [snd].
  pose proof (search_offset_bound (profile p vo) (prev_profile p vo) width)
    as Hoff.
  set (off := snd (search (profile p vo) (prev_profile p vo) width)) in *.
  assert (Hwq : (0 < inject_Z (IMAGE_WIDTH vo))%Q).
  { unfold Qlt, inject_Z. simpl. lia. }
  assert (Hiw : (0 < / inject_Z (IMAGE_WIDTH vo))%Q)
    by (apply Qinv_lt_0_compat; exact Hwq).
  pose proof (Qabs_inject_Z_le off 39 Hoff) as Ha.
  pose proof (Qabs_nonneg (CAMERA_FOV_DEG vo)) as Hf.
  pose proof (Qabs_nonneg (CAMERA_HZ vo)) as Hh.
  cbn [of_int dmul ddiv exact M_PI].
  set (pi := (7074237752028440 # 2251799813685248)%Q).
  assert (Hpi : (0 < pi)%Q) by reflexivity.
  unfold Qdiv. rewrite !Qabs_Qmult, !Qabs_Qinv.
  rewrite (Qabs_pos (inject_Z (IMAGE_WIDTH vo))) by (apply Qlt_le_weak; exact Hwq).
  rewrite (Qabs_pos pi) by (apply Qlt_le_weak; exact Hpi).
  rewrite (Qabs_pos (inject_Z 180)) by discriminate.
  set (T := (Qabs (CAMERA_FOV_DEG vo) * Qabs (CAMERA_HZ vo)
             * / inject_Z (IMAGE_WIDTH vo) * pi * / inject_Z 180)%Q).
  assert (HT : (0 <= T)%Q).
  { unfold T. repeat apply Qmult_le_0_compat; try assumption;
      try (apply Qlt_le_weak; assumption); discriminate. }
  apply Qle_trans with (Qabs (inject_Z off) * T)%Q.
  - apply Qle_lteq. right. unfold T. ring.
  - apply Qle_trans with (inject_Z 39 * T)%Q.
    + apply Qmult_le_compat_r; assumption.
    + apply Qle_lteq. right. unfold T.
      change (inject_Z 39) with 39%Q. change (inject_Z 180) with 180%Q.
      field. intros H. rewrite H in Hwq. discriminate.
Qed.

(** C10, as amended.  The winning offset of a search is one of -39, ...,
    39, whatever the profile length and whatever the numbers are; and, in
    exact arithmetic, for a positive image width the magnitude of the rate
    written by [visual_odo] is at most
    39 * |CAMERA_FOV_DEG| * |CAMERA_HZ| * M_PI / (180 * IMAGE_WIDTH). *)
Theorem rotation_rate_bound :
  (forall (D : Type) (dbl : Double D) (data olddata : list D) (width : Z),
      - 39 <= snd (search data olddata width) <= 39) /\
  (forall (vo : VisualOdometry Q) (p : profile_id) (width : Z),
      0 < IMAGE_WIDTH vo ->
      (Qabs (snd (snd (visual_odo vo p width)))
       <= 39 * Qabs (CAMERA_FOV_DEG vo) * Qabs (CAMERA_HZ vo) * M_PI
          / (180 * inject_Z (IMAGE_WIDTH vo)))%Q).
Proof.
  split.
  - intros D dbl data olddata width. apply search_offset_bound.
  - exact visual_odo_vrot_abs.
Qed.

(** ** The profile extractor, in exact arithmetic *)

Lemma px_range (view_rgb : list byte) (pos : Z) :
  0 <= px view_rgb pos <= 255.
Proof.
  unfold px. pose proof (Byte.to_N_bounded (rd x00 view_rgb pos)). lia.
Qed.

Lemma inject_Z_range (z b : Z) :
  0 <= z <= b -> (0 <= inject_Z z <= inject_Z b)%Q.
Proof.
  intros [Hlo Hhi]. split.
  - change 0%Q with (inject_Z 0). rewrite <- Zle_Qle. exact Hlo.
  - rewrite <- Zle_Qle. exact Hhi.
Qed.

Lemma adds_at_wr (dn : Z) (B v : Q) :
  (0 <= v <= B)%Q ->
  adds_at dn B (fun cv => wr cv dn (dadd (rd d0 cv dn) v)).
Proof.
  intros Hv cv. split; [apply wr_length|]. split.
  - intros j Hj. apply rd_wr_other. congruence.
  - destruct (Z.ltb_spec dn 0) as [Hneg|Hpos].
    + unfold wr. destruct (Z.ltb_spec dn 0); [|lia]. lra.
    + destruct (Z.ltb_spec dn (Z.of_nat (length cv))) as [Hin|Hout].
      * rewrite rd_wr_same by lia. cbn [dadd exact]. lra.
      * assert (Hid : wr cv dn (dadd (rd d0 cv dn) v) = cv).
        { unfold wr. destruct (Z.ltb_spec dn 0); [reflexivity|].
          apply (nth_ext _ _ d0 d0); [apply upd_length|].
          intros n Hn. rewrite upd_length in Hn.
          apply nth_upd_other. lia. }
        rewrite Hid. lra.
Qed.

Lemma adds_at_for_upto (dn : Z) (B : Q) (n : Z)
    (body : Z -> list Q -> list Q) :
  0 <= n -> (0 <= B)%Q ->
  (forall i, 0 <= i < n -> adds_at dn B (body i)) ->
  adds_at dn (inject_Z n * B) (for_upto n body).
Proof.
  intros Hn HB Hbody cv.
  apply (for_upto_inv
           (fun i t =>
              length t = length cv /\
              (forall j, j <> dn -> rd d0 t j = rd d0 cv j) /\
              (rd d0 cv dn <= rd d0 t dn <= rd d0 cv dn + inject_Z i * B)%Q)).
  - assumption.
  - split; [reflexivity|]. split; [reflexivity|].
    change (inject_Z 0) with 0%Q. lra.
  - intros i t Hi [Hlen [Hoth Hacc]].
    destruct (Hbody i Hi t) as [Hlen' [Hoth' Hacc']].
    split; [congruence|]. split.
    + intros j Hj. rewrite Hoth' by assumption. apply Hoth; assumption.
    + rewrite inject_Z_plus. change (inject_Z 1) with 1%Q. lra.
Qed.

Lemma adds_at_for_range (dn : Z) (B : Q) (a b : Z)
    (body : Z -> list Q -> list Q) :
  a <= b -> (0 <= B)%Q ->
  (forall x, a <= x < b -> adds_at dn B (body x)) ->
  adds_at dn (inject_Z (b - a) * B) (for_range a b body).
Proof.
  intros Hab HB Hbody. unfold for_range.
  apply adds_at_for_upto; [lia | assumption |].
  intros i Hi. apply Hbody. lia.
Qed.

(** The mean of a sum of [n] values between 0 and [m] is between 0 and 1. *)
Lemma mean_in_unit (acc m : Q) (n : Z) :
  0 < n -> (0 < m)%Q -> (0 <= acc <= inject_Z n * m)%Q ->
  (0 <= acc / m / inject_Z n <= 1)%Q.
Proof.
  intros Hn Hm [Hlo Hhi].
  assert (Hnq : (0 < inject_Z n)%Q) by (unfold Qlt, inject_Z; simpl; lia).
  split.
  - apply Qle_shift_div_l; [assumption|].
    apply Qle_shift_div_l; [assumption|]. lra.
  - apply Qle_shift_div_r; [assumption|].
    apply Qle_shift_div_r; [assumption|]. lra.
Qed.

(** The zeroing loop at the head of the extractor. *)
Lemma zero_loop_spec (cv : list Q) :
  let r := for_upto (Z.of_nat (length cv)) (fun i cv => wr cv i d0) cv in
  length r = length cv /\
  forall j, 0 <= j < Z.of_nat (length cv) -> rd d0 r j = d0.
Proof.
  cbv zeta.
  apply (for_upto_inv
           (fun i t => length t = length cv /\
                       forall j, 0 <= j < i -> rd d0 t j = d0)).
  - lia.
  - split; [reflexivity | intros; lia].
  - intros i t Hi [Hlen Hz]. split; [now rewrite wr_length|].
    intros j Hj. destruct (Z.eq_dec i j) as [->|Hij].
    + apply rd_wr_same. lia.
    + rewrite rd_wr_other by assumption. apply Hz. lia.
Qed.

(** One row of blocks, each block one column wide and [sy] rows high, over
    a zeroed vector of [n] entries: every entry ends between 0 and 1. *)
Lemma block_loops_unit (sample : Z -> Z -> Q) (maxval : Q)
    (n sy x_min y_min : Z) (cv0 : list Q) :
  (forall x y, 0 <= sample x y <= maxval)%Q ->
  (0 < maxval)%Q -> 0 < sy ->
  Z.of_nat (length cv0) = n ->
  (forall j, 0 <= j < n -> rd d0 cv0 j = d0) ->
  let r := fst (block_loops sample maxval n 1 x_min y_min 1 sy (cv0, 0)) in
  length r = length cv0 /\
  forall j, 0 <= j < n -> (0 <= rd d0 r j <= 1)%Q.
Proof.
  intros Hs Hmax Hsy Hn Hzero. cbv zeta. unfold block_loops.
  change 1 with (0 + 1) at 1.
  rewrite for_upto_succ by lia. rewrite (for_upto_nonpos 0) by lia.
  match goal with
  | |- context [for_upto n ?body (cv0, 0)] =>
      pose proof
        (for_upto_inv
           (fun i (st : list Q * Z) =>
              snd st = i /\ length (fst st) = length cv0 /\
              (forall j, 0 <= j < i -> (0 <= rd d0 (fst st) j <= 1)%Q) /\
              (forall j, i <= j < n -> rd d0 (fst st) j = d0))
           n body (cv0, 0)) as Hinv
  end.
  cbv beta in Hinv.
  destruct Hinv as [_ [Hlen [Hunit _]]].
  - lia.
  - split; [reflexivity|]. split; [reflexivity|].
    split; [intros; lia | exact Hzero].
  - intros i [cv dn] Hi [Hdn [Hlen [Hunit Hz]]]. cbn [fst snd] in *. subst dn.
    set (x_block := x_min + i * 1).
    set (y_block := y_min + 0 * sy).
    match goal with
    | |- context [for_range x_block (x_block + 1) ?body cv] =>
        assert (Hadd : adds_at i (inject_Z (x_block + 1 - x_block)
                                  * (inject_Z (y_block + sy - y_block) * maxval))
                         (for_range x_block (x_block + 1) body))
    end.
    { assert (H0 : (0 <= maxval)%Q) by lra.
      apply adds_at_for_range; [lia | |].
      - apply Qmult_le_0_compat; [|assumption].
        change 0%Q with (inject_Z 0). rewrite <- Zle_Qle. lia.
      - intros x _. apply adds_at_for_range; [lia | assumption |].
        intros y _. apply adds_at_wr. apply Hs. }
    destruct (Hadd cv) as [Hlen' [Hoth Hacc]].
    match type of Hlen' with
    | length ?t = _ => set (cv' := t) in *
    end.
    replace (x_block + 1 - x_block) with 1 in Hacc by lia.
    replace (y_block + sy - y_block) with sy in Hacc by lia.
    rewrite (Hz i) in Hacc by lia.
    change (inject_Z 1) with 1%Q in Hacc. change (@d0 Q exact) with 0%Q in Hacc.
    assert (Hin : 0 <= i < Z.of_nat (length cv')) by lia.
    cbn [fst snd]. split; [reflexivity|].
    split; [rewrite !wr_length; congruence|].
    split.
    + intros j Hj. destruct (Z.eq_dec i j) as [<-|Hij].
      * rewrite rd_wr_same by (rewrite wr_length; lia).
        rewrite rd_wr_same by lia.
        rewrite Z.mul_1_l. cbn [ddiv exact of_int].
        apply mean_in_unit; [assumption | assumption |].
        change (@d0 Q exact) with 0%Q. lra.
      * rewrite !rd_wr_other by assumption.
        rewrite Hoth by congruence. apply Hunit. lia.
    + intros j Hj. rewrite !rd_wr_other by lia.
      rewrite Hoth by lia. apply Hz. lia.
  - split; [exact Hlen|]. intros j Hj. apply Hunit. lia.
Qed.

Lemma to_uint32_small (z : Z) : 0 <= z < 2 ^ 31 -> to_uint32 z = z.
Proof. intros Hz. unfold to_uint32. apply Z.mod_small. lia. Qed.

Lemma to_int32_small (z : Z) : 0 <= z < 2 ^ 31 -> to_int32 z = z.
Proof.
  intros Hz. unfold to_int32. rewrite Z.mod_small by lia. lia.
Qed.

(** C4.  In exact arithmetic: for a region that is valid for the image
    (inside it, [x_min < x_max], [y_min < y_max], the bounds being ints) and
    a profile buffer of the region's width, whatever the pixel bytes and the
    format, every entry of the profile that the extractor leaves is between
    0 and 1. *)
Theorem profile_entries_in_unit_interval (vo : VisualOdometry Q)
    (current_view : list Q) (view_rgb : list byte) (grayscale : bool)
    (x_min x_max y_min y_max : Z) :
  valid_region (IMAGE_WIDTH vo) (IMAGE_HEIGHT vo) x_min x_max y_min y_max ->
  x_max < 2 ^ 31 -> y_max < 2 ^ 31 ->
  Z.of_nat (length current_view) = x_max - x_min ->
  Forall (fun v => (0 <= v <= 1)%Q)
         (convert_view_to_view_template vo current_view view_rgb grayscale
            x_min x_max y_min y_max).
Proof.
  intros [Hx0 [Hx [Hxw [Hy0 [Hy Hyh]]]]] Hxi Hyi Hlen.
  unfold convert_view_to_view_template. cbv zeta.
  rewrite !to_uint32_small by lia.
  rewrite Z.div_same by lia. rewrite Z.div_1_r.
  rewrite !to_int32_small by lia.
  rewrite <- Hlen.
  destruct (zero_loop_spec current_view) as [Hzl Hz]. cbv zeta in Hzl, Hz.
  set (cv0 := for_upto (Z.of_nat (length current_view))
                       (fun i cv => wr cv i d0) current_view) in *.
  assert (Hall : forall sample maxval,
             (forall x y, 0 <= sample x y <= maxval)%Q -> (0 < maxval)%Q ->
             Forall (fun v => (0 <= v <= 1)%Q)
               (fst (block_loops sample maxval
                       (Z.of_nat (length current_view)) 1 x_min y_min 1
                       (y_max - y_min) (cv0, 0)))).
  { intros sample maxval Hs Hmax.
    destruct (block_loops_unit sample maxval (Z.of_nat (length current_view))
                (y_max - y_min) x_min y_min cv0 Hs Hmax)
      as [Hl Hu]; [lia | congruence | |].
    { intros j Hj. apply Hz. exact Hj. }
    cbv zeta in Hl, Hu.
    apply Forall_forall. intros v Hv.
    destruct (In_nth _ _ d0 Hv) as [k [Hk <-]].
    specialize (Hu (Z.of_nat k)). unfold rd in Hu.
    destruct (Z.ltb_spec (Z.of_nat k) 0); [lia|].
    rewrite Nat2Z.id in Hu. apply Hu. lia. }
  destruct grayscale; apply Hall.
  - intros x y. cbv zeta. cbn [of_int exact].
    apply inject_Z_range. apply px_range.
  - reflexivity.
  - intros x y. cbv zeta. cbn [of_int exact dadd dmul].
    set (pos := (x + y * IMAGE_WIDTH vo) * 3).
    pose proof (inject_Z_range _ 255 (px_range view_rgb pos)) as H1.
    pose proof (inject_Z_range _ 255 (px_range view_rgb (pos + 1))) as H2.
    pose proof (inject_Z_range _ 255 (px_range view_rgb (pos + 2))) as H3.
    change (inject_Z 255) with 255%Q in *. change (inject_Z 3) with 3%Q.
    lra.
  - reflexivity.
Qed.

(** ** The first frame *)

(** On an instance that the constructor has just returned, the seeding of
    the previous profiles at the head of [on_image] changes nothing: both
    buffers of a region come out of [resize] with the same zeros, and the
    profiles are extracted after the copy.  The frame is processed as if the
    flag had been false. *)
Lemma first_frame_seeding_noop {D : Type} {dbl : Double D}
    (image_width_member image_height_member : Z)
    (vtrans_image_x_min vtrans_image_x_max
     vtrans_image_y_min vtrans_image_y_max
     vrot_image_x_min vrot_image_x_max
     vrot_image_y_min vrot_image_y_max : Z)
    (camera_fov_deg camera_hz vtrans_scaling vtrans_max : D)
    (vo : VisualOdometry D) (data : list byte) (greyscale : bool)
    (image_width image_height : Z) :
  VisualOdometry_ctor image_width_member image_height_member
    vtrans_image_x_min vtrans_image_x_max
    vtrans_image_y_min vtrans_image_y_max
    vrot_image_x_min vrot_image_x_max
    vrot_image_y_min vrot_image_y_max
    camera_fov_deg camera_hz vtrans_scaling vtrans_max = Some vo ->
  first vo = true /\
  on_image vo data greyscale image_width image_height
  = on_image (set_first false vo) data greyscale image_width image_height.
Proof.
  unfold VisualOdometry_ctor, resize.
  destruct (to_int32 _ <? 0); [discriminate|].
  destruct (to_int32 _ <? 0); [discriminate|].
  intros H. injection H as <-. split; [reflexivity|].
  unfold on_image. cbn [first set_dims set_first vtrans_profile vrot_profile
                        vtrans_prev_profile vrot_prev_profile
                        set_prev_profile].
  rewrite !copy_loop_self. reflexivity.
Qed.

(** C1, what the code does.  The instance constructed for two full-frame
    regions of a 40 by 1 image (field of view 50 degrees, 10 Hz, scaling
    100, ceiling 20) is given [frame1] as its first frame: [on_image]
    leaves the speed 20 (the ceiling) and the rate 1 * 50 / 40 * 10 * M_PI /
    180 in the two slots, not 0 and 0. *)
Theorem first_frame_outputs_not_zero :
  exists vo : VisualOdometry float,
    VisualOdometry_ctor 0 0 0 40 0 1 0 40 0 1
      (of_int 50) (of_int 10) (of_int 100) (of_int 20) = Some vo /\
    first vo = true /\
    snd (on_image vo frame1 true 40 1) = (20%float, 0x1.becde5da115a9p-3%float) /\
    PrimFloat.eqb 20 0 = false /\
    PrimFloat.eqb 0x1.becde5da115a9p-3 0 = false.
Proof.
  eexists. split; [reflexivity|]. split; [reflexivity|].
  split; [vm_compute; reflexivity|]. split; reflexivity.
Qed.

(** The same run in exact arithmetic: the speed is 20 and the rate is
    1 * 50 / 40 * 10 * M_PI / 180. *)
Lemma first_frame_outputs_exact :
  let out := snd (on_image (fresh_vo (D := Q) 50) frame1 true 40 1) in
  (fst out == 20)%Q /\
  (snd out == 1 * 50 / 40 * 10 * M_PI / 180)%Q /\
  ~ (snd out == 0)%Q.
Proof.
  cbv zeta. split; [|split].
  - vm_compute. reflexivity.
  - vm_compute. reflexivity.
  - intros H. vm_compute in H. discriminate.
Qed.

(** ** Instances of the theorems, and inputs on which a claim fails *)

(** Rotation region with [x_max = -1] on an instance whose member
    [IMAGE_WIDTH] holds 160 when the constructor runs: the resolved bound is
    160 and the rotation buffers have 160 entries. *)
Lemma ctor_resolves_negative_max_witness :
  is_int 160 /\ is_int 120 /\ is_int 0 /\ is_int (-1) /\
  0 <= (if -1 <? 0 then 160 else -1) - 0 < 2 ^ 31 /\
  exists vo : VisualOdometry float,
    VisualOdometry_ctor 160 120 0 (-1) 0 (-1) 0 (-1) 0 (-1)
      (of_int 50) (of_int 10) (of_int 100) (of_int 20) = Some vo /\
    VROT_IMAGE_X_MAX vo = 160 /\
    Z.of_nat (length (vrot_profile vo)) = 160 /\
    Z.of_nat (length (vrot_prev_profile vo)) = 160.
Proof.
  assert (I160 : is_int 160) by (unfold is_int; lia).
  assert (I120 : is_int 120) by (unfold is_int; lia).
  assert (I0 : is_int 0) by (unfold is_int; lia).
  assert (Im1 : is_int (-1)) by (unfold is_int; lia).
  assert (Hwd : 0 <= (if -1 <? 0 then 160 else -1) - 0 < 2 ^ 31)
    by (simpl; lia).
  split; [exact I160|]. split; [exact I120|]. split; [exact I0|].
  split; [exact Im1|]. split; [exact Hwd|].
  destruct (ctor_resolves_negative_max (D := float) 160 120 0 (-1) 0 (-1) 0 (-1) 0 (-1)
              (of_int 50) (of_int 10) (of_int 100) (of_int 20)
              I160 I120 I0 Im1 I0 Im1 I0 Im1 I0 Im1 Hwd Hwd)
    as [vo [Hvo [_ [_ [_ [_ [Hx [_ [_ [_ [_ [_ [Hl [Hlp _]]]]]]]]]]]]]].
  exists vo. split; [exact Hvo|].
  assert (Hmax : VROT_IMAGE_X_MAX vo = 160) by (apply Hx; lia).
  split; [exact Hmax|].
  assert (Hmin : VROT_IMAGE_X_MIN vo = 0).
  { vm_compute in Hvo. injection Hvo as <-. reflexivity. }
  rewrite Hl, Hlp, Hmax, Hmin. split; reflexivity.
Defined.

(** A max bound of 0 is not resolved: with an image width of 160 and a
    rotation region given with [x_max = 0], the resolved bound is 0. *)
Lemma ctor_keeps_zero_max :
  exists vo : VisualOdometry float,
    VisualOdometry_ctor 160 120 0 160 0 120 0 0 0 120
      (of_int 50) (of_int 10) (of_int 100) (of_int 20) = Some vo /\
    VROT_IMAGE_X_MAX vo = 0 /\ VROT_IMAGE_X_MAX vo <> 160.
Proof.
  eexists. split; [reflexivity|]. split; [reflexivity|]. discriminate.
Qed.

Lemma span_positive_witness :
  slen <= 40 /\ evaluated 39 /\ 0 < span 40 39.
Proof.
  assert (H1 : slen <= 40) by (unfold slen; lia).
  assert (H2 : evaluated 39) by (unfold evaluated, slen; lia).
  split; [exact H1|]. split; [exact H2|].
  exact (span_positive 40 39 H1 H2).
Defined.

(** A profile of 10 entries: the offset 10 is evaluated, its span is 0, and
    the candidate computed there in binary64 is 0.0 / 0.0, a NaN. *)
Lemma short_profile_zero_span :
  evaluated 10 /\ span 10 10 = 0 /\
  PrimFloat.is_nan
    (cdiff_fst (D := float) (repeat (of_int 1) 10) (repeat d0 10) 10 10)
  = true.
Proof.
  split; [unfold evaluated, slen; lia|]. split; reflexivity.
Qed.

Lemma profile_entries_in_unit_interval_witness :
  valid_region 40 1 0 40 0 1 /\
  Forall (fun v => (0 <= v <= 1)%Q)
         (convert_view_to_view_template (fresh_vo (D := Q) 50)
            (repeat d0 40) frame1 true 0 40 0 1).
Proof.
  assert (Hv : valid_region 40 1 0 40 0 1) by (unfold valid_region; lia).
  split; [exact Hv|].
  apply (profile_entries_in_unit_interval (fresh_vo 50) (repeat d0 40)
           frame1 true 0 40 0 1 Hv); reflexivity.
Defined.

(** [step_profile] against zeros: the first loop gives means above 1/2, the
    second gives 1/2 at every offset from 1 on; the offset recorded is +1,
    the first of them. *)
Lemma first_minimum_wins_witness :
  search (D := float) step_profile (repeat d0 40) 40
  = (cdiff_snd step_profile (repeat d0 40) 40 1, 1).
Proof.
  apply (proj2 (proj2 (proj2 (proj2
           (first_minimum_wins (D := float) step_profile (repeat d0 40) 40))))
         (firstn 41 (candidates step_profile (repeat d0 40) 40))
         (cdiff_snd step_profile (repeat d0 40) 40 1) 1
         (skipn 42 (candidates step_profile (repeat d0 40) 40))).
  - vm_compute. reflexivity.
  - vm_compute. reflexivity.
  - vm_compute. repeat constructor.
  - vm_compute. repeat constructor.
Defined.

Lemma visual_odo_copies_width_witness :
  let vo := plain_vo (D := float) 40 50 step_profile flat_profile in
  let vo' := fst (visual_odo vo VROT 40) in
  0 <= 40 <= Z.of_nat (length (profile VROT vo)) /\
  40 <= Z.of_nat (length (prev_profile VROT vo)) /\
  prev_profile VROT vo' = step_profile /\
  profile VROT vo' = step_profile.
Proof.
  cbv zeta.
  assert (H1 : 0 <= 40 <= Z.of_nat (length (profile VROT
                 (plain_vo (D := float) 40 50 step_profile flat_profile))))
    by (cbn; lia).
  assert (H2 : 40 <= Z.of_nat (length (prev_profile VROT
                 (plain_vo (D := float) 40 50 step_profile flat_profile))))
    by (cbn; lia).
  split; [exact H1|]. split; [exact H2|].
  destruct (visual_odo_copies_width _ VROT 40 H1 H2)
    as [_ [_ [_ [Hall [Hcur _]]]]].
  split; [apply Hall; reflexivity | exact Hcur].
Defined.

(** Two inputs on which the magnitude of the rate is above
    39 * CAMERA_FOV_DEG * CAMERA_HZ * pi / (180 * IMAGE_WIDTH).  In exact
    arithmetic, a negative field of view: the width is positive, the winning
    offset is +1, and the bound is negative.  In binary64, a field of view
    of 60 degrees at 10 Hz and a width of 80, with the winning offset -39:
    the rate written is -0x1.46b9c347764a4p+2, and its magnitude is above
    the bound even when pi is replaced by 3.14159265358979324, which is
    greater than pi. *)
Lemma rate_exceeds_stated_bound :
  (let vo := set_profile VROT step_profile (fresh_vo (D := Q) (-50)) in
   let vrot_rads := snd (snd (visual_odo vo VROT 40)) in
   0 < IMAGE_WIDTH vo /\
   snd (search (profile VROT vo) (prev_profile VROT vo) 40) = 1 /\
   (39 * CAMERA_FOV_DEG vo * CAMERA_HZ vo * M_PI
      / (180 * inject_Z (IMAGE_WIDTH vo)) < 0)%Q /\
   (39 * CAMERA_FOV_DEG vo * CAMERA_HZ vo * M_PI
      / (180 * inject_Z (IMAGE_WIDTH vo)) < Qabs vrot_rads)%Q) /\
  (let vo := plain_vo (D := float) 80 60 spike_first spike_middle in
   let vrot_rads := snd (snd (visual_odo vo VROT 80)) in
   0 < IMAGE_WIDTH vo /\
   CAMERA_FOV_DEG vo = 60%float /\ CAMERA_HZ vo = 10%float /\
   snd (search (profile VROT vo) (prev_profile VROT vo) 80) = - 39 /\
   vrot_rads = (-0x1.46b9c347764a4p+2)%float /\
   (39 * 60 * 10 * (314159265358979324 # 100000000000000000)
      / (180 * inject_Z (IMAGE_WIDTH vo))
    < Qabs (Q_of_float vrot_rads))%Q).
Proof.
  split.
  - cbv zeta. split; [reflexivity|]. split; [vm_compute; reflexivity|].
    split; vm_compute; reflexivity.
  - cbv zeta. split; [reflexivity|]. split; [vm_compute; reflexivity|].
    split; [vm_compute; reflexivity|]. split; [vm_compute; reflexivity|].
    split; vm_compute; reflexivity.
Qed.

(** ** The start value of the search, in exact arithmetic *)

Lemma rd_unit (l : list Q) (k : Z) :
  Forall (fun v => (0 <= v <= 1)%Q) l -> (0 <= rd d0 l k <= 1)%Q.
Proof.
  intros Hl. unfold rd.
  destruct (k <? 0); [split; discriminate|].
  destruct (Nat.lt_ge_cases (Z.to_nat k) (length l)) as [Hin|Hout].
  - rewrite Forall_forall in Hl. apply Hl. apply nth_In. exact Hin.
  - rewrite nth_overflow by exact Hout. split; discriminate.
Qed.

(** A mean absolute difference of two profiles with entries between 0 and 1,
    over a positive span, is between 0 and 1. *)
Lemma mean_abs_diff_unit (f : Z -> Q) (n : Z) :
  0 < n -> (forall k, 0 <= f k <= 1)%Q ->
  (0 <= ddiv (for_upto n (fun k cdiff => dadd cdiff (f k)) d0)
             (dmul (of_int 1) (of_int n)) <= 1)%Q.
Proof.
  intros Hn Hf.
  assert (Hsum : (0 <= for_upto n (fun k cdiff => dadd cdiff (f k)) d0
                  <= inject_Z n)%Q).
  { apply (for_upto_inv (fun i acc => (0 <= acc <= inject_Z i)%Q)).
    - lia.
    - split; discriminate.
    - intros i acc Hi Hacc. specialize (Hf i). cbn [dadd exact].
      rewrite inject_Z_plus. change (inject_Z 1) with 1%Q. lra. }
  assert (Hnq : (0 < inject_Z n)%Q) by (unfold Qlt, inject_Z; simpl; lia).
  cbn [ddiv dmul of_int exact]. change (inject_Z 1) with 1%Q.
  split.
  - apply Qle_shift_div_l; lra.
  - apply Qle_shift_div_r; lra.
Qed.

Lemma abs_diff_unit (a b : Q) :
  (0 <= a <= 1)%Q -> (0 <= b <= 1)%Q -> (0 <= fabs (dsub a b) <= 1)%Q.
Proof.
  intros Ha Hb. cbn [fabs dsub exact]. split.
  - apply Qabs_nonneg.
  - apply Qabs_Qle_condition. lra.
Qed.

(** Profiles with entries between 0 and 1, at least as long as the search
    radius: every candidate is at most 1, hence below the start value 1e6 of
    the search. *)
Lemma candidates_below_start (data olddata : list Q) (width : Z) :
  slen <= width ->
  Forall (fun v => (0 <= v <= 1)%Q) data ->
  Forall (fun v => (0 <= v <= 1)%Q) olddata ->
  Forall (fun x => (fst x <= 1)%Q /\ dlt (fst x) lit_1e6 = true)
         (candidates data olddata width).
Proof.
  intros Hw Hd Ho.
  assert (Hlt : forall c : Q, (0 <= c <= 1)%Q ->
                              (c <= 1)%Q /\ dlt c lit_1e6 = true).
  { intros c Hc. split; [apply Hc|].
    cbn [dlt lit_1e6 exact]. apply Qltb_lt.
    apply Qle_lt_trans with 1%Q; [apply Hc | reflexivity]. }
  unfold candidates. apply Forall_app. split;
    apply Forall_forall; intros x Hx; apply in_map_iff in Hx;
    destruct Hx as [o [<- Hin]]; apply in_seq in Hin; cbn [fst];
    apply Hlt.
  - unfold cdiff_fst.
    apply (mean_abs_diff_unit
             (fun k => fabs (dsub (rd d0 data k)
                                  (rd d0 olddata (k + Z.of_nat o))))).
    + unfold span, slen in *. lia.
    + intros k. apply abs_diff_unit; apply rd_unit; assumption.
  - unfold cdiff_snd.
    apply (mean_abs_diff_unit
             (fun k => fabs (dsub (rd d0 data (k + Z.of_nat o))
                                  (rd d0 olddata k)))).
    + unfold span, slen in *. lia.
    + intros k. apply abs_diff_unit; apply rd_unit; assumption.
Qed.

(** ** The two implementations of [double] on the constants and samples *)

(** The constants of [exact] are the values that those of [binary64]
    denote: M_PI is 7074237752028440 * 2^-51 and 1e6 is 2^-33 times
    8589934592000000. *)
Lemma constants_agree :
  Prim2SF (M_PI (D := float)) = S754_finite false 7074237752028440 (-51) /\
  (M_PI (D := Q) == 7074237752028440 / 2 ^ 51)%Q /\
  Prim2SF (lit_1e6 (D := float)) = S754_finite false 8589934592000000 (-33) /\
  (lit_1e6 (D := Q) == 8589934592000000 / 2 ^ 33)%Q.
Proof.
  split; [vm_compute; reflexivity|].
  split; [vm_compute; reflexivity|].
  split; vm_compute; reflexivity.
Qed.

(** [fresh_vo] is what the constructor returns for explicit bounds. *)
Lemma fresh_vo_constructed {D : Type} {dbl : Double D} (fov : Z) :
  VisualOdometry_ctor 40 1 0 40 0 1 0 40 0 1
    (of_int fov) (of_int 10) (of_int 100) (of_int 20)
  = Some (fresh_vo fov).
Proof. reflexivity. Qed.

(** In binary64 the profile extracted from [frame1] is 1.0 followed by 39
    times the rounded 128/255, all between 0 and 1. *)
Lemma extractor_binary64_frame1 :
  convert_view_to_view_template (fresh_vo (D := float) 50) (repeat d0 40)
    frame1 true 0 40 0 1
  = 1%float :: repeat 0x1.010101010101p-1%float 39 /\
  PrimFloat.leb 0 0x1.010101010101p-1 = true /\
  PrimFloat.leb 0x1.010101010101p-1 1 = true.
Proof.
  split; [vm_compute; reflexivity|]. split; reflexivity.
Qed.

(** ** What [on_image] keeps *)

(** The region bounds are those the constructor resolved: [on_image] latches
    the dimensions it is given, clears the first-frame flag, and leaves the
    bounds as they are. *)
Lemma on_image_keeps_regions {D : Type} {dbl : Double D}
    (vo : VisualOdometry D) (data : list byte) (greyscale : bool)
    (image_width image_height : Z) :
  let vo' := fst (on_image vo data greyscale image_width image_height) in
  IMAGE_WIDTH vo' = to_int32 image_width /\
  IMAGE_HEIGHT vo' = to_int32 image_height /\
  (first vo = true -> first vo' = false) /\
  VTRANS_IMAGE_X_MIN vo' = VTRANS_IMAGE_X_MIN vo /\
  VTRANS_IMAGE_X_MAX vo' = VTRANS_IMAGE_X_MAX vo /\
  VTRANS_IMAGE_Y_MIN vo' = VTRANS_IMAGE_Y_MIN vo /\
  VTRANS_IMAGE_Y_MAX vo' = VTRANS_IMAGE_Y_MAX vo /\
  VROT_IMAGE_X_MIN vo' = VROT_IMAGE_X_MIN vo /\
  VROT_IMAGE_X_MAX vo' = VROT_IMAGE_X_MAX vo /\
  VROT_IMAGE_Y_MIN vo' = VROT_IMAGE_Y_MIN vo /\
  VROT_IMAGE_Y_MAX vo' = VROT_IMAGE_Y_MAX vo.
Proof.
  cbv zeta. unfold on_image. rewrite !visual_odo_unfold. cbv zeta.
  cbn [fst snd].
  destruct vo as [ih iw a1 a2 a3 a4 b1 b2 b3 b4 fov hz sc mx tp rp tpp rpp f].
  cbn [first set_dims]. destruct f; cbn; repeat split; reflexivity.
Qed.

(** ** The extractor, for any implementation of [double] *)

Lemma upd_upd {A : Type} (l : list A) (n : nat) (a b : A) :
  upd (upd l n a) n b = upd l n b.
Proof.
  revert n; induction l as [|h t IH]; intros [|n]; simpl; auto.
  now rewrite IH.
Qed.

Lemma wr_wr {A : Type} (l : list A) (i : Z) (a b : A) :
  wr (wr l i a) i b = wr l i b.
Proof.
  unfold wr. destruct (i <? 0); [reflexivity | apply upd_upd].
Qed.

Lemma for_upto_zero {S : Type} (body : Z -> S -> S) (s : S) :
  for_upto 0 body s = s.
Proof. reflexivity. Qed.

Lemma for_upto_one {S : Type} (body : Z -> S -> S) (s : S) :
  for_upto 1 body s = body 0 s.
Proof. reflexivity. Qed.

(** Bodies that agree on the indices of the loop give the same loop. *)
Lemma for_upto_ext {S : Type} (n : Z) (f g : Z -> S -> S) (s : S) :
  (forall i t, 0 <= i < n -> f i t = g i t) ->
  for_upto n f s = for_upto n g s.
Proof.
  intros Hfg. destruct (Z.le_gt_cases n 0) as [Hn|Hn].
  - now rewrite !for_upto_nonpos.
  - apply (for_upto_inv (fun i t => t = for_upto i g s)); [lia | reflexivity|].
    intros i t Hi ->. rewrite for_upto_succ by lia. apply Hfg. exact Hi.
Qed.

Lemma rd_map_seq {A : Type} (d : A) (f : nat -> A) (n : nat) (j : Z) :
  0 <= j < Z.of_nat n -> rd d (map f (seq 0 n)) j = f (Z.to_nat j).
Proof.
  intros Hj. unfold rd. destruct (Z.ltb_spec j 0); [lia|].
  rewrite (nth_indep _ d (f O)) by (rewrite length_map, length_seq; lia).
  rewrite map_nth. rewrite seq_nth by lia. reflexivity.
Qed.

Section ExtractorGeneric.

Context {D : Type} {dbl : Double D}.

(** The accumulation into one entry of the vector is the accumulation in a
    scalar, written back. *)
Lemma accumulate_entry (s : Z -> D) (h dn : Z) (cv : list D) :
  0 <= h ->
  for_upto h (fun k cv => wr cv dn (dadd (rd d0 cv dn) (s k))) cv
  = wr cv dn (for_upto h (fun k acc => dadd acc (s k)) (rd d0 cv dn)).
Proof.
  intros Hh.
  apply (for_upto_inv
           (fun i t => t = wr cv dn (for_upto i (fun k acc => dadd acc (s k))
                                              (rd d0 cv dn)))).
  - exact Hh.
  - rewrite for_upto_zero. symmetry. apply wr_rd_id.
  - intros i t Hi ->. rewrite for_upto_succ by lia. rewrite wr_wr.
    destruct (Z.ltb_spec dn 0) as [Hneg|Hpos].
    { unfold wr. destruct (Z.ltb_spec dn 0); [reflexivity | lia]. }
    destruct (Z.ltb_spec dn (Z.of_nat (length cv))) as [Hin|Hout].
    + rewrite rd_wr_same by lia. reflexivity.
    + assert (Hid : forall v, wr cv dn v = cv).
      { intros v. unfold wr. destruct (Z.ltb_spec dn 0); [reflexivity|].
        apply (nth_ext _ _ d0 d0); [apply upd_length|].
        intros n Hn. rewrite upd_length in Hn. apply nth_upd_other. lia. }
      rewrite !Hid. reflexivity.
Qed.

(** One row of blocks, each one column wide and [h] rows high, over a zeroed
    vector of [n] entries: entry [i] ends as the mean of column
    [x_min + i]. *)
Lemma block_loops_means (grayscale : bool) (w : Z) (view_rgb : list byte)
    (n h x_min y_min : Z) (cv0 : list D) :
  0 <= h ->
  Z.of_nat (length cv0) = n ->
  (forall j, 0 <= j < n -> rd d0 cv0 j = d0) ->
  fst (block_loops (pixel_value grayscale w view_rgb) (max_value grayscale)
         n 1 x_min y_min 1 h (cv0, 0))
  = map (fun i => column_mean grayscale w view_rgb
                    (x_min + Z.of_nat i) y_min h)
        (seq 0 (Z.to_nat n)).
Proof.
  intros Hh Hn Hzero. unfold block_loops. rewrite for_upto_one.
  match goal with
  | |- context [for_upto n ?body (cv0, 0)] =>
      pose proof
        (for_upto_inv
           (fun i (st : list D * Z) =>
              snd st = i /\ length (fst st) = length cv0 /\
              (forall j, 0 <= j < i ->
                         rd d0 (fst st) j
                         = column_mean grayscale w view_rgb (x_min + j) y_min h) /\
              (forall j, i <= j < n -> rd d0 (fst st) j = d0))
           n body (cv0, 0)) as Hinv
  end.
  cbv beta in Hinv.
  destruct Hinv as [_ [Hlen [Hmean _]]].
  - lia.
  - split; [reflexivity|]. split; [reflexivity|].
    split; [intros; lia | exact Hzero].
  - intros i [cv dn] Hi [Hdn [Hlen [Hmean Hz]]]. cbn [fst snd] in *. subst dn.
    unfold for_range.
    replace (x_min + i * 1 + 1 - (x_min + i * 1)) with 1 by lia.
    rewrite for_upto_one.
    replace (y_min + 0 * h + h - (y_min + 0 * h)) with h by lia.
    rewrite accumulate_entry by exact Hh.
    rewrite (Hz i) by lia.
    assert (Hin : 0 <= i < Z.of_nat (length cv)) by lia.
    rewrite !rd_wr_same by (rewrite ?wr_length; exact Hin).
    rewrite !wr_wr.
    cbn [fst snd]. split; [reflexivity|].
    split; [rewrite wr_length; exact Hlen|].
    split.
    + intros j Hj. destruct (Z.eq_dec i j) as [<-|Hij].
      * rewrite rd_wr_same by exact Hin. unfold column_mean.
        rewrite Z.mul_1_l, Z.mul_1_r, Z.add_0_r.
        f_equal. f_equal. apply for_upto_ext. intros k t _.
        rewrite Z.mul_0_l, Z.add_0_r. reflexivity.
      * rewrite rd_wr_other by exact Hij. apply Hmean. lia.
    + intros j Hj. rewrite rd_wr_other by lia. apply Hz. lia.
  - apply (rd_ext d0).
    + rewrite length_map, length_seq. lia.
    + intros j Hj. rewrite Hmean by lia.
      rewrite rd_map_seq by lia. rewrite Z2Nat.id by lia. reflexivity.
Qed.

(** The zeroing loop at the head of the extractor. *)
Lemma zero_loop_generic (cv : list D) :
  let r := for_upto (Z.of_nat (length cv)) (fun i cv => wr cv i d0) cv in
  length r = length cv /\
  forall j, 0 <= j < Z.of_nat (length cv) -> rd d0 r j = d0.
Proof.
  cbv zeta.
  apply (for_upto_inv
           (fun i t => length t = length cv /\
                       forall j, 0 <= j < i -> rd d0 t j = d0)).
  - lia.
  - split; [reflexivity | intros; lia].
  - intros i t Hi [Hlen Hz]. split; [now rewrite wr_length|].
    intros j Hj. destruct (Z.eq_dec i j) as [->|Hij].
    + apply rd_wr_same. lia.
    + rewrite rd_wr_other by assumption. apply Hz. lia.
Qed.

(** The extractor on a region that is not empty, with int-sized bounds and
    a buffer of the region's width: the column means. *)
Lemma extractor_means (vo : VisualOdometry D) (current_view : list D)
    (view_rgb : list byte) (grayscale : bool) (x_min x_max y_min y_max : Z) :
  0 <= x_min < x_max -> 0 <= y_min < y_max ->
  x_max < 2 ^ 31 -> y_max < 2 ^ 31 ->
  Z.of_nat (length current_view) = x_max - x_min ->
  convert_view_to_view_template vo current_view view_rgb grayscale
    x_min x_max y_min y_max
  = map (fun i => column_mean grayscale (IMAGE_WIDTH vo) view_rgb
                    (x_min + Z.of_nat i) y_min (y_max - y_min))
        (seq 0 (Z.to_nat (x_max - x_min))).
Proof.
  intros Hx Hy Hxi Hyi Hlen.
  unfold convert_view_to_view_template. cbv zeta.
  rewrite !to_uint32_small by lia.
  rewrite Z.div_same by lia. rewrite Z.div_1_r.
  rewrite !to_int32_small by lia.
  rewrite <- Hlen.
  destruct (zero_loop_generic current_view) as [Hzl Hz]. cbv zeta in Hzl, Hz.
  set (cv0 := for_upto (Z.of_nat (length current_view))
                       (fun i cv => wr cv i d0) current_view) in *.
  pose proof (block_loops_means grayscale (IMAGE_WIDTH vo) view_rgb
                (Z.of_nat (length current_view)) (y_max - y_min)
                x_min y_min cv0) as Hb.
  destruct grayscale; apply Hb; try lia; try congruence; exact Hz.
Qed.

End ExtractorGeneric.

Section ExtractorProperties.

Context {D : Type} {dbl : Double D}.


(** X2.  The extractor overwrites the whole profile buffer: for a valid
    region, what it leaves does not depend on what the buffer held, and the
    buffer keeps its length. *)
Theorem extractor_overwrites_buffer (vo : VisualOdometry D)
    (current_view current_view' : list D) (view_rgb : list byte)
    (grayscale : bool) (x_min x_max y_min y_max : Z) :
  valid_region (IMAGE_WIDTH vo) (IMAGE_HEIGHT vo) x_min x_max y_min y_max ->
  x_max < 2 ^ 31 -> y_max < 2 ^ 31 ->
  Z.of_nat (length view_rgb)
    = buffer_size grayscale (IMAGE_WIDTH vo) (IMAGE_HEIGHT vo) ->
  Z.of_nat (length current_view) = x_max - x_min ->
  Z.of_nat (length current_view') = x_max - x_min ->
  convert_view_to_view_template vo current_view view_rgb grayscale
    x_min x_max y_min y_max
  = convert_view_to_view_template vo current_view' view_rgb grayscale
      x_min x_max y_min y_max /\
  length (convert_view_to_view_template vo current_view view_rgb grayscale
            x_min x_max y_min y_max) = length current_view.
Proof.
  intros [Hx0 [Hx [_ [Hy0 [Hy _]]]]] Hxi Hyi _ Hlen Hlen'.
  rewrite !extractor_means by lia. split; [reflexivity|].
  rewrite length_map, length_seq. lia.
Qed.


End ExtractorProperties.

(** ** [on_image], stage by stage *)

Section OnImage.

Context {D : Type} {dbl : Double D}.

(** A loop keeps what each of its iterations keeps. *)
Lemma for_upto_preserves {S : Type} (P : S -> Prop) (n : Z)
    (body : Z -> S -> S) (s : S) :
  (forall i t, P t -> P (body i t)) -> P s -> P (for_upto n body s).
Proof.
  intros Hbody Hs. unfold for_upto.
  revert s Hs. induction (seq 0 (Z.to_nat n)) as [|i l IH]; intros s Hs; simpl.
  - exact Hs.
  - apply IH. apply Hbody. exact Hs.
Qed.

Lemma copy_loop_length (n : Z) (src dst : list D) :
  length (copy_loop n src dst) = length dst.
Proof.
  unfold copy_loop.
  apply (for_upto_preserves (fun t => length t = length dst));
    [|reflexivity].
  intros i t Ht. now rewrite wr_length.
Qed.

Lemma block_loops_length (sample : Z -> Z -> D) (maxval : D)
    (tx ty x_min y_min xbs ybs : Z) (st : list D * Z) :
  length (fst (block_loops sample maxval tx ty x_min y_min xbs ybs st))
  = length (fst st).
Proof.
  unfold block_loops.
  apply (for_upto_preserves
           (fun t : list D * Z => length (fst t) = length (fst st)));
    [|reflexivity].
  intros yc t Ht.
  apply (for_upto_preserves
           (fun t : list D * Z => length (fst t) = length (fst st)));
    [|exact Ht].
  intros xc [cv dn] Hcv. cbn [fst] in *. rewrite !wr_length.
  unfold for_range.
  apply (for_upto_preserves (fun t => length t = length (fst st)));
    [|exact Hcv].
  intros x t' Ht'.
  apply (for_upto_preserves (fun t => length t = length (fst st)));
    [|exact Ht'].
  intros y t'' Ht''. now rewrite wr_length.
Qed.

(** The extractor never changes the length of the buffer, whatever the
    region. *)
Lemma extractor_length (vo : VisualOdometry D) (current_view : list D)
    (view_rgb : list byte) (grayscale : bool) (x_min x_max y_min y_max : Z) :
  length (convert_view_to_view_template vo current_view view_rgb grayscale
            x_min x_max y_min y_max) = length current_view.
Proof.
  unfold convert_view_to_view_template. cbv zeta.
  assert (Hz : length (for_upto (to_uint32 (x_max - x_min))
                         (fun i cv => wr cv i d0) current_view)
               = length current_view).
  { apply (for_upto_preserves (fun t => length t = length current_view));
      [|reflexivity].
    intros i t Ht. now rewrite wr_length. }
  destruct grayscale; rewrite block_loops_length; exact Hz.
Qed.


(** [on_image] with the two calls of [visual_odo] replaced by what they
    return. *)
Lemma on_image_eq (vo : VisualOdometry D) (data : list byte)
    (greyscale : bool) (image_width image_height : Z) :
  on_image vo data greyscale image_width image_height
  = let vo := set_dims (to_int32 image_width) (to_int32 image_height) vo in
    let vo :=
      if first vo then
        let vo :=
          set_prev_profile VTRANS
            (copy_loop (Z.of_nat (length (vtrans_profile vo)))
                       (vtrans_profile vo) (vtrans_prev_profile vo)) vo in
        let vo :=
          set_prev_profile VROT
            (copy_loop (Z.of_nat (length (vrot_profile vo)))
                       (vrot_profile vo) (vrot_prev_profile vo)) vo in
        set_first false vo
      else vo in
    let vo :=
      set_profile VTRANS
        (convert_view_to_view_template vo (vtrans_profile vo) data greyscale
           (VTRANS_IMAGE_X_MIN vo) (VTRANS_IMAGE_X_MAX vo)
           (VTRANS_IMAGE_Y_MIN vo) (VTRANS_IMAGE_Y_MAX vo)) vo in
    let wt := to_ushort (Z.of_nat (length (vtrans_profile vo))) in
    let v :=
      dmul (fst (search (profile VTRANS vo) (prev_profile VTRANS vo) wt))
           (VTRANS_SCALING vo) in
    let vtrans_ms := if dlt (VTRANS_MAX vo) v then VTRANS_MAX vo else v in
    let vo :=
      set_prev_profile VTRANS
        (copy_loop wt (profile VTRANS vo) (prev_profile VTRANS vo)) vo in
    let vo :=
      set_profile VROT
        (convert_view_to_view_template vo (vrot_profile vo) data greyscale
           (VROT_IMAGE_X_MIN vo) (VROT_IMAGE_X_MAX vo)
           (VROT_IMAGE_Y_MIN vo) (VROT_IMAGE_Y_MAX vo)) vo in
    let wr := to_ushort (Z.of_nat (length (vrot_profile vo))) in
    let vrot_rads :=
      ddiv (dmul (dmul (ddiv (dmul (of_int (snd (search (profile VROT vo)
                                                   (prev_profile VROT vo) wr)))
                                   (CAMERA_FOV_DEG vo))
                             (of_int (IMAGE_WIDTH vo)))
                       (CAMERA_HZ vo))
                 M_PI)
           (of_int 180) in
    (set_prev_profile VROT
       (copy_loop wr (profile VROT vo) (prev_profile VROT vo)) vo,
     (vtrans_ms, vrot_rads)).
Proof.
  unfold on_image.
  set (vo0 := set_dims (to_int32 image_width) (to_int32 image_height) vo).
  cbv zeta.
  set (vo1 := if first vo0 then _ else vo0).
  set (vo2 := set_profile VTRANS _ vo1).
  rewrite (visual_odo_unfold vo2 VTRANS). cbv zeta. cbv beta iota.
  set (vo3 := set_prev_profile VTRANS _ vo2).
  set (vo4 := set_profile VROT _ vo3).
  rewrite (visual_odo_unfold vo4 VROT). cbv zeta. reflexivity.
Qed.

(** What [on_image] leaves in the four buffers and in the two slots, in
    terms of the two extractions and the two searches. *)
Lemma on_image_result (vo : VisualOdometry D) (data : list byte)
    (greyscale : bool) (image_width image_height : Z) :
  let vo0 := set_dims (to_int32 image_width) (to_int32 image_height) vo in
  let tprev :=
    if first vo then
      copy_loop (Z.of_nat (length (vtrans_profile vo)))
                (vtrans_profile vo) (vtrans_prev_profile vo)
    else vtrans_prev_profile vo in
  let rprev :=
    if first vo then
      copy_loop (Z.of_nat (length (vrot_profile vo)))
                (vrot_profile vo) (vrot_prev_profile vo)
    else vrot_prev_profile vo in
  let tp :=
    convert_view_to_view_template vo0 (vtrans_profile vo) data greyscale
      (VTRANS_IMAGE_X_MIN vo) (VTRANS_IMAGE_X_MAX vo)
      (VTRANS_IMAGE_Y_MIN vo) (VTRANS_IMAGE_Y_MAX vo) in
  let rp :=
    convert_view_to_view_template vo0 (vrot_profile vo) data greyscale
      (VROT_IMAGE_X_MIN vo) (VROT_IMAGE_X_MAX vo)
      (VROT_IMAGE_Y_MIN vo) (VROT_IMAGE_Y_MAX vo) in
  let wt := to_ushort (Z.of_nat (length tp)) in
  let wr := to_ushort (Z.of_nat (length rp)) in
  let res := on_image vo data greyscale image_width image_height in
  vtrans_profile (fst res) = tp /\
  vrot_profile (fst res) = rp /\
  vtrans_prev_profile (fst res) = copy_loop wt tp tprev /\
  vrot_prev_profile (fst res) = copy_loop wr rp rprev /\
  fst (snd res)
  = (let v := dmul (fst (search tp tprev wt)) (VTRANS_SCALING vo) in
     if dlt (VTRANS_MAX vo) v then VTRANS_MAX vo else v) /\
  snd (snd res)
  = ddiv (dmul (dmul (ddiv (dmul (of_int (snd (search rp rprev wr)))
                                 (CAMERA_FOV_DEG vo))
                           (of_int (to_int32 image_width)))
                     (CAMERA_HZ vo))
               M_PI)
         (of_int 180).
Proof.
  cbv zeta. rewrite on_image_eq. cbv zeta.
  destruct vo as [ih iw a1 a2 a3 a4 b1 b2 b3 b4 fov hz sc mx tp rp tpp rpp f].
  cbn [fst snd first set_dims set_first set_profile set_prev_profile
       profile prev_profile
       IMAGE_HEIGHT IMAGE_WIDTH VTRANS_IMAGE_X_MIN VTRANS_IMAGE_X_MAX
       VTRANS_IMAGE_Y_MIN VTRANS_IMAGE_Y_MAX VROT_IMAGE_X_MIN
       VROT_IMAGE_X_MAX VROT_IMAGE_Y_MIN VROT_IMAGE_Y_MAX CAMERA_FOV_DEG
       CAMERA_HZ VTRANS_SCALING VTRANS_MAX vtrans_profile vrot_profile
       vtrans_prev_profile vrot_prev_profile].
  destruct f;
    cbn [fst snd first set_dims set_first set_profile set_prev_profile
         profile prev_profile
         IMAGE_HEIGHT IMAGE_WIDTH VTRANS_IMAGE_X_MIN VTRANS_IMAGE_X_MAX
         VTRANS_IMAGE_Y_MIN VTRANS_IMAGE_Y_MAX VROT_IMAGE_X_MIN
         VROT_IMAGE_X_MAX VROT_IMAGE_Y_MIN VROT_IMAGE_Y_MAX CAMERA_FOV_DEG
         CAMERA_HZ VTRANS_SCALING VTRANS_MAX vtrans_profile vrot_profile
         vtrans_prev_profile vrot_prev_profile];
    repeat split; reflexivity.
Qed.

End OnImage.

(** ** The search, in exact arithmetic *)

(** The recorded pair is the start pair or one of the candidates. *)
Lemma fold_keep_min_in {D : Type} {dbl : Double D}
    (l : list (D * Z)) (st : D * Z) :
  let r := fold_left (fun st c => keep_min (fst c) (snd c) st) l st in
  r = st \/ In r l.
Proof.
  cbv zeta. revert st. induction l as [|[c o] l IH]; intros [m off]; simpl.
  - left. reflexivity.
  - destruct (dlt c m).
    + destruct (IH (c, o)) as [->|Hin]; [right; left; reflexivity|].
      right. right. exact Hin.
    + destruct (IH (m, off)) as [->|Hin]; [left; reflexivity|].
      right. right. exact Hin.
Qed.

(** The recorded minimum is at most the start value and at most every
    candidate. *)
Lemma fold_keep_min_lower (l : list (Q * Z)) (st : Q * Z) :
  let r := fold_left (fun st c => keep_min (fst c) (snd c) st) l st in
  (fst r <= fst st)%Q /\ Forall (fun x => (fst r <= fst x)%Q) l.
Proof.
  cbv zeta. revert st. induction l as [|[c o] l IH]; intros [m off]; simpl.
  - split; [apply Qle_refl | constructor].
  - destruct (Qltb c m) eqn:E.
    + apply Qltb_lt in E. destruct (IH (c, o)) as [Hst Hl]. cbn [fst] in *.
      split; [lra|]. constructor; [exact Hst | exact Hl].
    + apply Qltb_ge in E. destruct (IH (m, off)) as [Hst Hl]. cbn [fst] in *.
      split; [exact Hst|]. constructor; [cbn [fst]; lra | exact Hl].
Qed.

(** A sum of values that are not negative, divided by a positive span, is
    not negative; it is 0 when all the values are 0. *)
Lemma mean_nonneg (f : Z -> Q) (n : Z) :
  0 < n -> (forall k, 0 <= k < n -> (0 <= f k)%Q) ->
  (0 <= ddiv (for_upto n (fun k cdiff => dadd cdiff (f k)) d0)
             (dmul (of_int 1) (of_int n)))%Q.
Proof.
  intros Hn Hf.
  assert (Hsum : (0 <= for_upto n (fun k cdiff => dadd cdiff (f k)) d0)%Q).
  { apply (for_upto_inv (fun i acc => (0 <= acc)%Q)).
    - lia.
    - discriminate.
    - intros i acc Hi Hacc. specialize (Hf i Hi). cbn [dadd exact]. lra. }
  assert (Hnq : (0 < inject_Z n)%Q) by (unfold Qlt, inject_Z; simpl; lia).
  cbn [ddiv dmul of_int exact]. change (inject_Z 1) with 1%Q.
  apply Qle_shift_div_l; lra.
Qed.

Lemma mean_zero (f : Z -> Q) (n : Z) :
  0 < n -> (forall k, 0 <= k < n -> (f k == 0)%Q) ->
  (ddiv (for_upto n (fun k cdiff => dadd cdiff (f k)) d0)
        (dmul (of_int 1) (of_int n)) == 0)%Q.
Proof.
  intros Hn Hf.
  assert (Hsum : (for_upto n (fun k cdiff => dadd cdiff (f k)) d0 == 0)%Q).
  { apply (for_upto_inv (fun i acc => (acc == 0)%Q)).
    - lia.
    - reflexivity.
    - intros i acc Hi Hacc. specialize (Hf i Hi). cbn [dadd exact].
      rewrite Hacc, Hf. reflexivity. }
  cbn [ddiv dmul of_int exact]. rewrite Hsum. unfold Qdiv. ring.
Qed.

Lemma abs_diff_zero (a b : Q) : (a == b)%Q -> (fabs (dsub a b) == 0)%Q.
Proof.
  intros H. cbn [fabs dsub exact]. rewrite H.
  setoid_replace (b - b)%Q with 0%Q by ring. reflexivity.
Qed.

(** When the profile is at least as long as the search radius, no candidate
    is negative. *)
Lemma candidates_nonneg (data olddata : list Q) (width : Z) :
  slen <= width ->
  Forall (fun x => (0 <= fst x)%Q) (candidates data olddata width).
Proof.
  intros Hw. unfold candidates. apply Forall_app. split;
    apply Forall_forall; intros x Hx; apply in_map_iff in Hx;
    destruct Hx as [o [<- Hin]]; apply in_seq in Hin; cbn [fst].
  - unfold cdiff_fst.
    apply (mean_nonneg
             (fun k => fabs (dsub (rd d0 data k)
                                  (rd d0 olddata (k + Z.of_nat o))))).
    + unfold span, slen in *. lia.
    + intros k _. apply Qabs_nonneg.
  - unfold cdiff_snd.
    apply (mean_nonneg
             (fun k => fabs (dsub (rd d0 data (k + Z.of_nat o))
                                  (rd d0 olddata k)))).
    + unfold span, slen in *. lia.
    + intros k _. apply Qabs_nonneg.
Qed.

(** A pass over candidates that are not negative, one of which is 0: the
    recorded minimum is 0, and the recorded pair is the start pair, a
    candidate before the zero one, or the zero one. *)
Lemma fold_reaches_zero (l1 l2 : list (Q * Z)) (c : Q) (o : Z) (st : Q * Z) :
  (0 <= fst st)%Q ->
  Forall (fun x => (0 <= fst x)%Q) l1 ->
  Forall (fun x => (0 <= fst x)%Q) l2 ->
  (c == 0)%Q ->
  let r := fold_left (fun st c => keep_min (fst c) (snd c) st)
                     (l1 ++ (c, o) :: l2) st in
  (fst r == 0)%Q /\ (r = st \/ In r l1 \/ r = (c, o)).
Proof.
  intros Hst H1 H2 Hc. cbv zeta. rewrite fold_left_app. simpl.
  pose proof (fold_keep_min_pick (fun m => (0 <= m)%Q) l1 st Hst H1) as Hs1.
  pose proof (fold_keep_min_in l1 st) as Hin1. cbv zeta in Hin1.
  set (s1 := fold_left (fun st c => keep_min (fst c) (snd c) st) l1 st) in *.
  assert (Hs2 : (fst (keep_min c o s1) == 0)%Q /\
                (keep_min c o s1 = s1 \/ keep_min c o s1 = (c, o))).
  { destruct s1 as [m off]. cbn [keep_min fst] in *.
    destruct (dlt c m) eqn:E; cbn [dlt exact] in E; cbn [fst].
    - split; [exact Hc | right; reflexivity].
    - apply Qltb_ge in E. split; [lra | left; reflexivity]. }
  destruct Hs2 as [Hz Hwhich].
  set (s2 := keep_min c o s1) in *.
  assert (Hstay : fold_left (fun st c => keep_min (fst c) (snd c) st) l2 s2
                  = s2).
  { destruct s2 as [m2 off2]. apply fold_keep_min_stay.
    apply Forall_forall. intros x Hx.
    rewrite Forall_forall in H2. specialize (H2 x Hx).
    cbn [dlt exact fst] in *. apply Qltb_ge. lra. }
  rewrite Hstay. split; [exact Hz|].
  destruct Hwhich as [->| ->]; [|right; right; reflexivity].
  destruct Hin1 as [->|Hin]; [left; reflexivity | right; left; exact Hin].
Qed.

Lemma seq_split (k n : nat) :
  (k < n)%nat -> seq 0 n = seq 0 k ++ k :: seq (S k) (n - S k).
Proof.
  intros Hk. replace n with (k + S (n - S k))%nat at 1 by lia.
  rewrite seq_app. reflexivity.
Qed.

(** The candidates before and after the one of the first loop at offset
    [k], and before and after the one of the second loop at offset [k]. *)
Lemma candidates_split_fst {D : Type} {dbl : Double D}
    (data olddata : list D) (width k : Z) :
  0 <= k < slen ->
  candidates data olddata width
  = map (fun o => (cdiff_fst data olddata width (Z.of_nat o), - Z.of_nat o))
        (seq 0 (Z.to_nat k))
    ++ (cdiff_fst data olddata width k, - k)
       :: (map (fun o => (cdiff_fst data olddata width (Z.of_nat o),
                          - Z.of_nat o))
               (seq (S (Z.to_nat k)) (Z.to_nat slen - S (Z.to_nat k)))
           ++ map (fun o => (cdiff_snd data olddata width (Z.of_nat o),
                             Z.of_nat o))
                  (seq 0 (Z.to_nat slen))).
Proof.
  intros Hk. unfold candidates.
  assert (Hkn : (Z.to_nat k < Z.to_nat slen)%nat) by (unfold slen in *; lia).
  rewrite (seq_split _ _ Hkn) at 1.
  rewrite map_app. cbn [map]. rewrite <- app_assoc. cbn [app].
  rewrite Z2Nat.id by lia. reflexivity.
Qed.

Lemma candidates_split_snd {D : Type} {dbl : Double D}
    (data olddata : list D) (width k : Z) :
  0 <= k < slen ->
  candidates data olddata width
  = (map (fun o => (cdiff_fst data olddata width (Z.of_nat o), - Z.of_nat o))
         (seq 0 (Z.to_nat slen))
     ++ map (fun o => (cdiff_snd data olddata width (Z.of_nat o), Z.of_nat o))
            (seq 0 (Z.to_nat k)))
    ++ (cdiff_snd data olddata width k, k)
       :: map (fun o => (cdiff_snd data olddata width (Z.of_nat o),
                         Z.of_nat o))
              (seq (S (Z.to_nat k)) (Z.to_nat slen - S (Z.to_nat k))).
Proof.
  intros Hk. unfold candidates.
  assert (Hkn : (Z.to_nat k < Z.to_nat slen)%nat) by (unfold slen in *; lia).
  rewrite (seq_split _ _ Hkn) at 2.
  rewrite (map_app _ (seq 0 (Z.to_nat k))). cbn [map]. rewrite app_assoc.
  rewrite Z2Nat.id by lia. reflexivity.
Qed.

(** X4.  In exact arithmetic, for profiles at least as long as the search
    radius: the minimum that the search records is at most 1e6 and at most
    every candidate, and the pair it records is the start pair (1e6, 0) or
    one of the candidates with its offset. *)
Theorem search_records_minimum (data olddata : list Q) (width : Z) :
  slen <= width ->
  (fst (search data olddata width) <= lit_1e6)%Q /\
  Forall (fun x => (fst (search data olddata width) <= fst x)%Q)
         (candidates data olddata width) /\
  (search data olddata width = (lit_1e6, 0) \/
   In (search data olddata width) (candidates data olddata width)).
Proof.
  intros _. rewrite search_candidates.
  destruct (fold_keep_min_lower (candidates data olddata width) (lit_1e6, 0))
    as [H1 H2].
  split; [exact H1|]. split; [exact H2|].
  apply (fold_keep_min_in (D := Q)).
Qed.

(** A current profile that is the previous one moved by [k] columns: the
    candidate of the first loop at offset [k] is 0, and no candidate is
    below 0. *)
Lemma search_shift_zero (data olddata : list Q) (width k : Z) :
  slen <= width -> 0 <= k < slen ->
  (forall j, 0 <= j < width - k ->
             (rd d0 data j == rd d0 olddata (j + k))%Q) ->
  (fst (search data olddata width) == 0)%Q /\
  - k <= snd (search data olddata width) <= 0.
Proof.
  intros Hw Hk Hshift.
  pose proof (candidates_nonneg data olddata width Hw) as Hnn.
  rewrite search_candidates.
  rewrite (candidates_split_fst data olddata width k Hk) in *.
  apply Forall_app in Hnn. destruct Hnn as [Hn1 Hn2].
  inversion Hn2 as [|? ? _ Hn2']; subst.
  match goal with
  | |- context [fold_left _ (?l1 ++ (?c, ?o) :: ?l2) ?st] =>
      destruct (fold_reaches_zero l1 l2 c o st) as [Hz Hwhich];
        [discriminate | exact Hn1 | exact Hn2' | |]
  end.
  - unfold cdiff_fst.
    apply (mean_zero
             (fun j => fabs (dsub (rd d0 data j) (rd d0 olddata (j + k))))).
    + unfold span, slen in *. lia.
    + intros j Hj. apply abs_diff_zero. apply Hshift.
      unfold span in Hj. exact Hj.
  - split; [exact Hz|].
    destruct Hwhich as [-> | [Hin | ->]].
    + cbn [snd]. lia.
    + apply in_map_iff in Hin. destruct Hin as [n [Hn Hin]].
      apply in_seq in Hin. rewrite <- Hn. cbn [snd]. lia.
    + cbn [snd]. lia.
Qed.

(** X5.  In exact arithmetic, for profiles at least as long as the search
    radius: when the current profile is the previous one moved by [k]
    columns ([data[j] = olddata[j + k]] wherever both are compared, with
    [0 <= k < 40]), the search records a minimum of 0 and an offset between
    [-k] and 0. *)
Theorem search_detects_shift (data olddata : list Q) (width k : Z) :
  slen <= width -> 0 <= k < slen ->
  (forall j, 0 <= j < width - k ->
             (rd d0 data j == rd d0 olddata (j + k))%Q) ->
  (fst (search data olddata width) == 0)%Q /\
  - k <= snd (search data olddata width) <= 0.
Proof. apply search_shift_zero. Qed.

(** X6.  The other direction: when [data[j + k] = olddata[j]] wherever both
    are compared and every candidate of the first loop is above 0, the
    search records a minimum of 0 and an offset between 0 and [k]. *)
Theorem search_detects_opposite_shift (data olddata : list Q) (width k : Z) :
  slen <= width -> 0 <= k < slen ->
  (forall j, 0 <= j < width - k ->
             (rd d0 data (j + k) == rd d0 olddata j)%Q) ->
  (forall o, 0 <= o < slen -> (0 < cdiff_fst data olddata width o)%Q) ->
  (fst (search data olddata width) == 0)%Q /\
  0 <= snd (search data olddata width) <= k.
Proof.
  intros Hw Hk Hshift Hfst.
  pose proof (candidates_nonneg data olddata width Hw) as Hnn.
  rewrite search_candidates.
  rewrite (candidates_split_snd data olddata width k Hk) in *.
  apply Forall_app in Hnn. destruct Hnn as [Hn1 Hn2].
  inversion Hn2 as [|? ? _ Hn2']; subst.
  match goal with
  | |- context [fold_left _ (?l1 ++ (?c, ?o) :: ?l2) ?st] =>
      destruct (fold_reaches_zero l1 l2 c o st) as [Hz Hwhich];
        [discriminate | exact Hn1 | exact Hn2' | |]
  end.
  - unfold cdiff_snd.
    apply (mean_zero
             (fun j => fabs (dsub (rd d0 data (j + k)) (rd d0 olddata j)))).
    + unfold span, slen in *. lia.
    + intros j Hj. apply abs_diff_zero. apply Hshift.
      unfold span in Hj. exact Hj.
  - split; [exact Hz|].
    destruct Hwhich as [Heq | [Hin | Heq]].
    + rewrite Heq in Hz. cbn [fst lit_1e6 exact] in Hz. discriminate.
    + apply in_app_or in Hin. destruct Hin as [Hin|Hin];
        apply in_map_iff in Hin; destruct Hin as [n [Hn Hin]];
        apply in_seq in Hin.
      * exfalso. rewrite <- Hn in Hz. cbn [fst] in Hz.
        specialize (Hfst (Z.of_nat n)). rewrite Hz in Hfst.
        apply (Qlt_irrefl 0). apply Hfst. unfold slen in *. lia.
      * rewrite <- Hn. cbn [snd]. lia.
    + rewrite Heq. cbn [snd]. lia.
Qed.

(** ** [on_image] over a sequence of frames *)

Section Frames.

Context {D : Type} {dbl : Double D}.

Lemma to_ushort_small (z : Z) : 0 <= z < 2 ^ 16 -> to_ushort z = z.
Proof. intros Hz. unfold to_ushort. apply Z.mod_small. exact Hz. Qed.

(** The lengths of the four buffers after [on_image]. *)
Lemma on_image_lengths (vo : VisualOdometry D) (data : list byte)
    (greyscale : bool) (image_width image_height : Z) :
  let vo' := fst (on_image vo data greyscale image_width image_height) in
  length (vtrans_profile vo') = length (vtrans_profile vo) /\
  length (vtrans_prev_profile vo') = length (vtrans_prev_profile vo) /\
  length (vrot_profile vo') = length (vrot_profile vo) /\
  length (vrot_prev_profile vo') = length (vrot_prev_profile vo).
Proof.
  cbv zeta.
  destruct (on_image_result vo data greyscale image_width image_height)
    as [Htp [Hrp [Htpp [Hrpp _]]]].
  rewrite Htp, Hrp, Htpp, Hrpp.
  rewrite !copy_loop_length, !extractor_length.
  destruct (first vo); rewrite ?copy_loop_length; repeat split; reflexivity.
Qed.

(** After [on_image], on buffers of equal lengths below 2^16, the previous
    profile of each region is its current profile. *)
Lemma on_image_prev (vo : VisualOdometry D) (data : list byte)
    (greyscale : bool) (image_width image_height : Z) :
  length (vtrans_prev_profile vo) = length (vtrans_profile vo) ->
  length (vrot_prev_profile vo) = length (vrot_profile vo) ->
  Z.of_nat (length (vtrans_profile vo)) < 2 ^ 16 ->
  Z.of_nat (length (vrot_profile vo)) < 2 ^ 16 ->
  let vo' := fst (on_image vo data greyscale image_width image_height) in
  vtrans_prev_profile vo' = vtrans_profile vo' /\
  vrot_prev_profile vo' = vrot_profile vo'.
Proof.
  intros Ht Hr Htw Hrw. cbv zeta.
  destruct (on_image_result vo data greyscale image_width image_height)
    as [Htp [Hrp [Htpp [Hrpp _]]]].
  rewrite Htp, Hrp, Htpp, Hrpp.
  rewrite !extractor_length.
  rewrite !to_ushort_small by lia.
  split.
  - rewrite <- (extractor_length
                  (set_dims (to_int32 image_width) (to_int32 image_height) vo)
                  (vtrans_profile vo) data greyscale
                  (VTRANS_IMAGE_X_MIN vo) (VTRANS_IMAGE_X_MAX vo)
                  (VTRANS_IMAGE_Y_MIN vo) (VTRANS_IMAGE_Y_MAX vo)) at 1.
    apply copy_loop_all. rewrite extractor_length.
    destruct (first vo); rewrite ?copy_loop_length; exact Ht.
  - rewrite <- (extractor_length
                  (set_dims (to_int32 image_width) (to_int32 image_height) vo)
                  (vrot_profile vo) data greyscale
                  (VROT_IMAGE_X_MIN vo) (VROT_IMAGE_X_MAX vo)
                  (VROT_IMAGE_Y_MIN vo) (VROT_IMAGE_Y_MAX vo)) at 1.
    apply copy_loop_all. rewrite extractor_length.
    destruct (first vo); rewrite ?copy_loop_length; exact Hr.
Qed.

(** X7.  [on_image] never changes the length of any of the four profile
    buffers, whatever the image, the dimensions and the regions. *)
Theorem on_image_keeps_buffer_lengths (vo : VisualOdometry D)
    (data : list byte) (greyscale : bool) (image_width image_height : Z) :
  let vo' := fst (on_image vo data greyscale image_width image_height) in
  length (vtrans_profile vo') = length (vtrans_profile vo) /\
  length (vtrans_prev_profile vo') = length (vtrans_prev_profile vo) /\
  length (vrot_profile vo') = length (vrot_profile vo) /\
  length (vrot_prev_profile vo') = length (vrot_prev_profile vo).
Proof. apply on_image_lengths. Qed.

(** X8.  When the previous buffer of each region has the length of the
    current one, below 2^16, [on_image] returns with the previous profile
    of each region equal to its current profile: the frame just processed
    is what the next frame is compared with. *)
Theorem on_image_previous_is_current (vo : VisualOdometry D)
    (data : list byte) (greyscale : bool) (image_width image_height : Z) :
  length (vtrans_prev_profile vo) = length (vtrans_profile vo) ->
  length (vrot_prev_profile vo) = length (vrot_profile vo) ->
  Z.of_nat (length (vtrans_profile vo)) < 2 ^ 16 ->
  Z.of_nat (length (vrot_profile vo)) < 2 ^ 16 ->
  let vo' := fst (on_image vo data greyscale image_width image_height) in
  vtrans_prev_profile vo' = vtrans_profile vo' /\
  vrot_prev_profile vo' = vrot_profile vo'.
Proof. apply on_image_prev. Qed.

(** Readiness is kept by [on_image], which clears the first-frame flag. *)
Lemma on_image_ready (vo : VisualOdometry D) (data : list byte)
    (greyscale : bool) (image_width image_height : Z) :
  ready vo image_width image_height ->
  let vo' := fst (on_image vo data greyscale image_width image_height) in
  ready vo' image_width image_height /\
  IMAGE_WIDTH vo' = image_width /\ IMAGE_HEIGHT vo' = image_height /\
  first vo' = false.
Proof.
  intros Hr. cbv zeta.
  pose proof (on_image_keeps_regions vo data greyscale image_width image_height)
    as Hk. cbv zeta in Hk.
  destruct Hk as [Hw [Hh [Hf [E1 [E2 [E3 [E4 [E5 [E6 [E7 E8]]]]]]]]]].
  destruct (on_image_lengths vo data greyscale image_width image_height)
    as [L1 [L2 [L3 L4]]].
  assert (Hdims : 0 <= image_width < 2 ^ 31 /\ 0 <= image_height < 2 ^ 31).
  { destruct Hr as [[Ht0 [Ht1 [Ht2 [Ht3 [Ht4 Ht5]]]]] [_ [Hwi [Hhi _]]]]. lia. }
  rewrite to_int32_small in Hw, Hh by apply Hdims.
  unfold ready in *. rewrite E1, E2, E3, E4, E5, E6, E7, E8, L1, L2, L3, L4.
  split; [exact Hr|]. split; [exact Hw|]. split; [exact Hh|].
  rewrite on_image_eq. cbv zeta.
  destruct vo as [ih iw a1 a2 a3 a4 b1 b2 b3 b4 fov hz sc mx tp rp tpp rpp f].
  destruct f; reflexivity.
Qed.

(** X9.  An instance that is ready for frames of some dimensions is still
    ready for them after [on_image] on such a frame: the regions are the
    same and the buffers have kept their lengths, and the dimensions latched
    are those of the frame. *)
Theorem on_image_keeps_ready (vo : VisualOdometry D) (data : list byte)
    (greyscale : bool) (image_width image_height : Z) :
  ready vo image_width image_height ->
  let vo' := fst (on_image vo data greyscale image_width image_height) in
  ready vo' image_width image_height /\
  IMAGE_WIDTH vo' = image_width /\ IMAGE_HEIGHT vo' = image_height /\
  first vo' = false.
Proof. apply on_image_ready. Qed.

End Frames.

(** ** Frames in exact arithmetic *)

Lemma pixel_value_range (grayscale : bool) (w : Z) (view_rgb : list byte)
    (x y : Z) :
  (0 <= pixel_value (D := Q) grayscale w view_rgb x y
   <= max_value grayscale)%Q.
Proof.
  unfold pixel_value, max_value. destruct grayscale; cbn [of_int dadd dmul exact].
  - apply inject_Z_range. apply px_range.
  - pose proof (inject_Z_range _ 255 (px_range view_rgb ((x + y * w) * 3)))
      as H1.
    pose proof (inject_Z_range _ 255 (px_range view_rgb ((x + y * w) * 3 + 1)))
      as H2.
    pose proof (inject_Z_range _ 255 (px_range view_rgb ((x + y * w) * 3 + 2)))
      as H3.
    change (inject_Z 255) with 255%Q in *. change (inject_Z 3) with 3%Q.
    lra.
Qed.

Lemma max_value_pos (grayscale : bool) : (0 < max_value (D := Q) grayscale)%Q.
Proof. destruct grayscale; reflexivity. Qed.

Lemma column_mean_unit (grayscale : bool) (w : Z) (view_rgb : list byte)
    (x y_min h : Z) :
  0 < h ->
  (0 <= column_mean (D := Q) grayscale w view_rgb x y_min h <= 1)%Q.
Proof.
  intros Hh. unfold column_mean. cbn [ddiv of_int exact].
  apply mean_in_unit; [exact Hh | apply max_value_pos |].
  apply (for_upto_inv
           (fun i acc => (0 <= acc <= inject_Z i * max_value grayscale)%Q)).
  - lia.
  - change (inject_Z 0) with 0%Q. change (@d0 Q exact) with 0%Q. lra.
  - intros i acc Hi Hacc.
    pose proof (pixel_value_range grayscale w view_rgb x (y_min + i)) as Hp.
    cbn [dadd exact]. rewrite inject_Z_plus. change (inject_Z 1) with 1%Q.
    lra.
Qed.

(** The profile extracted from a region that is not empty has its entries
    between 0 and 1. *)
Lemma extractor_unit (vo : VisualOdometry Q) (current_view : list Q)
    (view_rgb : list byte) (grayscale : bool) (x_min x_max y_min y_max : Z) :
  0 <= x_min < x_max -> 0 <= y_min < y_max ->
  x_max < 2 ^ 31 -> y_max < 2 ^ 31 ->
  Z.of_nat (length current_view) = x_max - x_min ->
  unit_profile (convert_view_to_view_template vo current_view view_rgb
                  grayscale x_min x_max y_min y_max).
Proof.
  intros Hx Hy Hxi Hyi Hlen. rewrite extractor_means by assumption.
  unfold unit_profile. apply Forall_forall. intros v Hv.
  apply in_map_iff in Hv. destruct Hv as [i [<- _]].
  apply column_mean_unit. lia.
Qed.

(** The minimum recorded for profiles with entries between 0 and 1, at
    least as long as the search radius, is between 0 and 1. *)
Lemma search_min_unit (data olddata : list Q) (width : Z) :
  slen <= width -> unit_profile data -> unit_profile olddata ->
  (0 <= fst (search data olddata width) <= 1)%Q.
Proof.
  intros Hw Hd Ho. rewrite search_candidates. split.
  - apply (fold_keep_min_pick (fun m => (0 <= m)%Q)); [discriminate|].
    apply candidates_nonneg. exact Hw.
  - destruct (fold_keep_min_lower (candidates data olddata width)
                (lit_1e6, 0)) as [_ Hall].
    pose proof (candidates_below_start data olddata width Hw Hd Ho) as Hone.
    rewrite (candidates_split_fst data olddata width 0) in Hall, Hone
      by (unfold slen; lia).
    cbn [Z.to_nat seq map app] in Hall, Hone.
    inversion Hall as [|? ? Hle _]; subst.
    inversion Hone as [|? ? [Hc _] _]; subst.
    cbn [fst] in *.
    rewrite (candidates_split_fst data olddata width 0) by (unfold slen; lia).
    cbn [Z.to_nat seq map app]. lra.
Qed.

(** The profiles that [on_image] leaves on an instance that is ready: the
    column means of the frame over each region. *)
Lemma on_image_profiles_ready {D : Type} {dbl : Double D}
    (vo : VisualOdometry D) (data : list byte) (greyscale : bool)
    (image_width image_height : Z) :
  ready vo image_width image_height ->
  let vo' := fst (on_image vo data greyscale image_width image_height) in
  vtrans_profile vo'
  = map (fun i => column_mean greyscale image_width data
                    (VTRANS_IMAGE_X_MIN vo + Z.of_nat i)
                    (VTRANS_IMAGE_Y_MIN vo)
                    (VTRANS_IMAGE_Y_MAX vo - VTRANS_IMAGE_Y_MIN vo))
        (seq 0 (Z.to_nat (VTRANS_IMAGE_X_MAX vo - VTRANS_IMAGE_X_MIN vo))) /\
  vrot_profile vo'
  = map (fun i => column_mean greyscale image_width data
                    (VROT_IMAGE_X_MIN vo + Z.of_nat i)
                    (VROT_IMAGE_Y_MIN vo)
                    (VROT_IMAGE_Y_MAX vo - VROT_IMAGE_Y_MIN vo))
        (seq 0 (Z.to_nat (VROT_IMAGE_X_MAX vo - VROT_IMAGE_X_MIN vo))).
Proof.
  intros [[Ht0 [Ht1 [Ht2 [Ht3 [Ht4 Ht5]]]]]
          [[Hr0 [Hr1 [Hr2 [Hr3 [Hr4 Hr5]]]]]
             [Hw [Hh [_ [_ [Lt [_ [Lr _]]]]]]]]].
  cbv zeta.
  destruct (on_image_result vo data greyscale image_width image_height)
    as [Htp [Hrp _]].
  rewrite Htp, Hrp.
  rewrite !extractor_means by lia.
  cbn [IMAGE_WIDTH set_dims]. rewrite to_int32_small by lia.
  split; reflexivity.
Qed.

(** X10.  In exact arithmetic: after [on_image] on an instance that is
    ready for the frame, every entry of the four profile buffers is between
    0 and 1, whatever the pixels and whatever the buffers held. *)
Theorem on_image_profiles_in_unit (vo : VisualOdometry Q) (data : list byte)
    (greyscale : bool) (image_width image_height : Z) :
  ready vo image_width image_height ->
  Z.of_nat (length data) = buffer_size greyscale image_width image_height ->
  let vo' := fst (on_image vo data greyscale image_width image_height) in
  unit_profile (vtrans_profile vo') /\
  unit_profile (vtrans_prev_profile vo') /\
  unit_profile (vrot_profile vo') /\
  unit_profile (vrot_prev_profile vo').
Proof.
  intros Hr _. cbv zeta.
  destruct (on_image_profiles_ready vo data greyscale image_width image_height Hr)
    as [Htp Hrp].
  destruct Hr as [[Ht0 [Ht1 [Ht2 [Ht3 [Ht4 Ht5]]]]]
                  [[Hr0 [Hr1 [Hr2 [Hr3 [Hr4 Hr5]]]]]
                     [Hw [Hh [Wt [Wr [Lt [Ltp [Lr Lrp]]]]]]]]].
  destruct (on_image_prev vo data greyscale image_width image_height)
    as [Hpt Hpr]; try lia.
  rewrite Hpt, Hpr, Htp, Hrp.
  assert (Hu : forall x_min y_min hh n,
             0 < hh ->
             unit_profile
               (map (fun i => column_mean (D := Q) greyscale image_width data
                                (x_min + Z.of_nat i) y_min hh)
                    (seq 0 n))).
  { intros x_min y_min hh n Hhh. unfold unit_profile.
    apply Forall_forall. intros v Hv.
    apply in_map_iff in Hv. destruct Hv as [i [<- _]].
    apply column_mean_unit. exact Hhh. }
  repeat split; apply Hu; lia.
Qed.

(** X11.  In exact arithmetic: on an instance that is ready for the frame,
    with a translation region at least 40 columns wide, translation
    profiles with entries between 0 and 1, and a scaling and a ceiling that
    are not negative, the speed that [on_image] leaves is between 0 and
    [VTRANS_SCALING]. *)
Theorem on_image_vtrans_range (vo : VisualOdometry Q) (data : list byte)
    (greyscale : bool) (image_width image_height : Z) :
  ready vo image_width image_height ->
  Z.of_nat (length data) = buffer_size greyscale image_width image_height ->
  slen <= VTRANS_IMAGE_X_MAX vo - VTRANS_IMAGE_X_MIN vo ->
  unit_profile (vtrans_profile vo) ->
  unit_profile (vtrans_prev_profile vo) ->
  (0 <= VTRANS_SCALING vo)%Q -> (0 <= VTRANS_MAX vo)%Q ->
  (0 <= fst (snd (on_image vo data greyscale image_width image_height))
   <= VTRANS_SCALING vo)%Q.
Proof.
  intros Hr _ Hs Hup Hupp Hsc Hmx.
  destruct (on_image_result vo data greyscale image_width image_height)
    as [_ [_ [_ [_ [Hvt _]]]]].
  cbv zeta in Hvt. rewrite Hvt. clear Hvt.
  destruct Hr as [[Ht0 [Ht1 [Ht2 [Ht3 [Ht4 Ht5]]]]]
                  [_ [Hw [Hh [Wt [_ [Lt [Ltp _]]]]]]]].
  rewrite extractor_length. rewrite to_ushort_small by lia.
  match goal with
  | |- context [search ?tp ?tprev ?wt] =>
      assert (Hm : (0 <= fst (search tp tprev wt) <= 1)%Q);
        [| set (m := fst (search tp tprev wt)) in * ]
  end.
  { apply search_min_unit.
    - lia.
    - apply extractor_unit; lia.
    - destruct (first vo); [|exact Hupp].
      rewrite copy_loop_all by lia. exact Hup. }
  assert (Hv0 : (0 <= dmul m (VTRANS_SCALING vo))%Q).
  { cbn [dmul exact]. apply Qmult_le_0_compat; [apply Hm | exact Hsc]. }
  assert (Hv1 : (dmul m (VTRANS_SCALING vo) <= VTRANS_SCALING vo)%Q).
  { cbn [dmul exact].
    apply Qle_trans with (1 * VTRANS_SCALING vo)%Q.
    - apply Qmult_le_compat_r; [apply Hm | exact Hsc].
    - apply Qle_lteq. right. ring. }
  destruct (dlt (VTRANS_MAX vo) (dmul m (VTRANS_SCALING vo))) eqn:E;
    cbn [dlt exact] in E.
  - apply Qltb_lt in E. lra.
  - lra.
Qed.


(** [on_image] keeps the four calibration constants. *)
Lemma on_image_keeps_constants {D : Type} {dbl : Double D}
    (vo : VisualOdometry D) (data : list byte) (greyscale : bool)
    (image_width image_height : Z) :
  let vo' := fst (on_image vo data greyscale image_width image_height) in
  CAMERA_FOV_DEG vo' = CAMERA_FOV_DEG vo /\ CAMERA_HZ vo' = CAMERA_HZ vo /\
  VTRANS_SCALING vo' = VTRANS_SCALING vo /\ VTRANS_MAX vo' = VTRANS_MAX vo.
Proof.
  cbv zeta. rewrite on_image_eq. cbv zeta. cbn [fst].
  repeat split;
    cbn [CAMERA_FOV_DEG CAMERA_HZ VTRANS_SCALING VTRANS_MAX
         set_prev_profile set_profile];
    destruct (first (set_dims _ _ vo)); reflexivity.
Qed.

(** A frame whose profiles are the ones the instance already holds, as
    current and as previous profiles: the speed and the rate are 0. *)
Lemma on_image_stationary (vo : VisualOdometry Q) (data : list byte)
    (greyscale : bool) (image_width image_height : Z) :
  ready vo image_width image_height ->
  first vo = false ->
  vtrans_prev_profile vo = vtrans_profile vo ->
  vrot_prev_profile vo = vrot_profile vo ->
  vtrans_profile (fst (on_image vo data greyscale image_width image_height))
  = vtrans_profile vo ->
  vrot_profile (fst (on_image vo data greyscale image_width image_height))
  = vrot_profile vo ->
  slen <= VTRANS_IMAGE_X_MAX vo - VTRANS_IMAGE_X_MIN vo ->
  slen <= VROT_IMAGE_X_MAX vo - VROT_IMAGE_X_MIN vo ->
  (0 <= VTRANS_MAX vo)%Q ->
  let out := snd (on_image vo data greyscale image_width image_height) in
  (fst out == 0)%Q /\ (snd out == 0)%Q.
Proof.
  intros Hr Hf Hpt Hpr Hsame_t Hsame_r Hst Hsr Hmx. cbv zeta.
  destruct (on_image_result vo data greyscale image_width image_height)
    as [Htp [Hrp [_ [_ [Hvt Hvr]]]]].
  cbv zeta in Htp, Hrp, Hvt, Hvr.
  rewrite Hvt, Hvr. clear Hvt Hvr.
  rewrite <- Htp, <- Hrp, Hsame_t, Hsame_r, Hf, Hpt, Hpr.
  clear Htp Hrp Hsame_t Hsame_r.
  destruct Hr as [_ [_ [_ [_ [Wt [Wr [Lt [_ [Lr _]]]]]]]]].
  rewrite !to_ushort_small by lia.
  assert (Hsame : forall l : list Q,
             slen <= Z.of_nat (length l) ->
             (fst (search l l (Z.of_nat (length l))) == 0)%Q /\
             snd (search l l (Z.of_nat (length l))) = 0).
  { intros l Hl.
    destruct (search_shift_zero l l (Z.of_nat (length l)) 0 Hl) as [Hz Ho].
    - unfold slen. lia.
    - intros j _. rewrite Z.add_0_r. reflexivity.
    - split; [exact Hz | lia]. }
  destruct (Hsame (vtrans_profile vo)) as [Hzt _]; [lia|].
  destruct (Hsame (vrot_profile vo)) as [_ Hor]; [lia|].
  rewrite Hor. split.
  - assert (Hv : (dmul (fst (search (vtrans_profile vo) (vtrans_profile vo)
                               (Z.of_nat (length (vtrans_profile vo)))))
                       (VTRANS_SCALING vo) == 0)%Q).
    { cbn [dmul exact]. rewrite Hzt. ring. }
    destruct (dlt _ _) eqn:E; cbn [dlt exact] in E.
    + apply Qltb_lt in E. rewrite Hv in E. lra.
    + exact Hv.
  - cbn [ddiv dmul of_int exact]. unfold Qdiv.
    change (inject_Z 0) with 0%Q. ring.
Qed.

(** X12.  In exact arithmetic: when the frame just processed is given
    again (a camera that does not move), on an instance that was ready for
    it, with both regions at least 40 columns wide and a ceiling that is
    not negative, [on_image] leaves a speed of 0 and a rate of 0. *)
Theorem on_image_same_frame_twice (vo : VisualOdometry Q) (data : list byte)
    (greyscale : bool) (image_width image_height : Z) :
  ready vo image_width image_height ->
  Z.of_nat (length data) = buffer_size greyscale image_width image_height ->
  slen <= VTRANS_IMAGE_X_MAX vo - VTRANS_IMAGE_X_MIN vo ->
  slen <= VROT_IMAGE_X_MAX vo - VROT_IMAGE_X_MIN vo ->
  (0 <= VTRANS_MAX vo)%Q ->
  let vo1 := fst (on_image vo data greyscale image_width image_height) in
  let out := snd (on_image vo1 data greyscale image_width image_height) in
  (fst out == 0)%Q /\ (snd out == 0)%Q.
Proof.
  intros Hr _ Hst Hsr Hmx. cbv zeta.
  pose proof (on_image_ready vo data greyscale image_width image_height Hr)
    as H1.
  pose proof (on_image_keeps_regions vo data greyscale image_width
                image_height) as Hk.
  pose proof (on_image_keeps_constants vo data greyscale image_width
                image_height) as Hc.
  pose proof (on_image_profiles_ready vo data greyscale image_width
                image_height Hr) as Hp1.
  pose proof (on_image_prev vo data greyscale image_width image_height)
    as Hprev.
  cbv zeta in H1, Hk, Hc, Hp1, Hprev.
  assert (Hprev' :
            vtrans_prev_profile
              (fst (on_image vo data greyscale image_width image_height))
            = vtrans_profile
                (fst (on_image vo data greyscale image_width image_height)) /\
            vrot_prev_profile
              (fst (on_image vo data greyscale image_width image_height))
            = vrot_profile
                (fst (on_image vo data greyscale image_width image_height))).
  { destruct Hr as [_ [_ [_ [_ [Wt [Wr [Lt [Ltp [Lr Lrp]]]]]]]]].
    apply Hprev; lia. }
  clear Hprev Hr.
  generalize dependent
    (fst (on_image vo data greyscale image_width image_height)).
  intros vo1 [Hr1 [_ [_ Hf1]]]
         [_ [_ [_ [E1 [E2 [E3 [E4 [E5 [E6 [E7 E8]]]]]]]]]]
         [_ [_ [_ Emax]]] [Hp1t Hp1r] [Hpt Hpr].
  pose proof (on_image_profiles_ready vo1 data greyscale image_width
                image_height Hr1) as Hp2. cbv zeta in Hp2.
  rewrite E1, E2, E3, E4, E5, E6, E7, E8 in Hp2.
  destruct Hp2 as [Hp2t Hp2r].
  rewrite <- Hp1t in Hp2t. rewrite <- Hp1r in Hp2r.
  apply on_image_stationary; try assumption.
  - rewrite E1, E2. exact Hst.
  - rewrite E5, E6. exact Hsr.
  - rewrite Emax. exact Hmx.
Qed.

(** ** Construction, again *)

(** X13.  With int arguments, the constructor throws when the width of a
    region as the code computes it, the resolved max bound minus the min
    bound in int arithmetic, is negative: when the resolved max is below
    the min (by 2^31 at most), and when the difference is 2^31 or more and
    wraps around. *)
Theorem ctor_throws_on_negative_width {D : Type} {dbl : Double D}
    (image_width_member image_height_member : Z)
    (vtrans_image_x_min vtrans_image_x_max
     vtrans_image_y_min vtrans_image_y_max
     vrot_image_x_min vrot_image_x_max
     vrot_image_y_min vrot_image_y_max : Z)
    (camera_fov_deg camera_hz vtrans_scaling vtrans_max : D) :
  is_int image_width_member ->
  is_int vtrans_image_x_min -> is_int vtrans_image_x_max ->
  is_int vrot_image_x_min -> is_int vrot_image_x_max ->
  (- 2 ^ 31 <= resolved vtrans_image_x_max image_width_member
               - vtrans_image_x_min < 0 \/
   2 ^ 31 <= resolved vtrans_image_x_max image_width_member
             - vtrans_image_x_min \/
   - 2 ^ 31 <= resolved vrot_image_x_max image_width_member
               - vrot_image_x_min < 0 \/
   2 ^ 31 <= resolved vrot_image_x_max image_width_member
             - vrot_image_x_min) ->
  VisualOdometry_ctor image_width_member image_height_member
    vtrans_image_x_min vtrans_image_x_max
    vtrans_image_y_min vtrans_image_y_max
    vrot_image_x_min vrot_image_x_max
    vrot_image_y_min vrot_image_y_max
    camera_fov_deg camera_hz vtrans_scaling vtrans_max = None.
Proof.
  unfold is_int, resolved. intros Iw It0 It1 Ir0 Ir1 H.
  assert (Hneg : forall a b : Z,
             - 2 ^ 31 <= a < 2 ^ 31 -> - 2 ^ 31 <= b < 2 ^ 31 ->
             (- 2 ^ 31 <= a - b < 0 \/ 2 ^ 31 <= a - b) ->
             (to_int32 (a - b) <? 0) = true).
  { intros a b Ha Hb Hab. apply Z.ltb_lt. unfold to_int32.
    destruct Hab as [Hab|Hab].
    - rewrite Z.mod_small by lia. lia.
    - replace (a - b + 2 ^ 31) with (a - b - 2 ^ 31 + 1 * 2 ^ 32) by lia.
      rewrite Z.mod_add by lia. rewrite Z.mod_small by lia. lia. }
  unfold VisualOdometry_ctor, resize.
  assert (Irt : - 2 ^ 31 <= (if vtrans_image_x_max <? 0
                             then image_width_member
                             else vtrans_image_x_max) < 2 ^ 31)
    by (destruct (vtrans_image_x_max <? 0); assumption).
  assert (Irr : - 2 ^ 31 <= (if vrot_image_x_max <? 0
                             then image_width_member
                             else vrot_image_x_max) < 2 ^ 31)
    by (destruct (vrot_image_x_max <? 0); assumption).
  destruct H as [H|[H|[H|H]]].
  - rewrite (Hneg _ _ Irt It0) by (left; exact H). reflexivity.
  - rewrite (Hneg _ _ Irt It0) by (right; exact H). reflexivity.
  - rewrite (Hneg _ _ Irr Ir0) by (left; exact H).
    destruct (to_int32 _ <? 0); reflexivity.
  - rewrite (Hneg _ _ Irr Ir0) by (right; exact H).
    destruct (to_int32 _ <? 0); reflexivity.
Qed.

(** X14.  An instance that the constructor returns, whose regions are valid
    for frames of [w] by [h] pixels and less than 2^16 columns wide, is
    ready for such frames; its first-frame flag is set and its four buffers
    hold zeros. *)
Theorem ctor_ready {D : Type} {dbl : Double D}
    (image_width_member image_height_member : Z)
    (vtrans_image_x_min vtrans_image_x_max
     vtrans_image_y_min vtrans_image_y_max
     vrot_image_x_min vrot_image_x_max
     vrot_image_y_min vrot_image_y_max : Z)
    (camera_fov_deg camera_hz vtrans_scaling vtrans_max : D)
    (vo : VisualOdometry D) (w h : Z) :
  VisualOdometry_ctor image_width_member image_height_member
    vtrans_image_x_min vtrans_image_x_max
    vtrans_image_y_min vtrans_image_y_max
    vrot_image_x_min vrot_image_x_max
    vrot_image_y_min vrot_image_y_max
    camera_fov_deg camera_hz vtrans_scaling vtrans_max = Some vo ->
  valid_region w h (VTRANS_IMAGE_X_MIN vo) (VTRANS_IMAGE_X_MAX vo)
               (VTRANS_IMAGE_Y_MIN vo) (VTRANS_IMAGE_Y_MAX vo) ->
  valid_region w h (VROT_IMAGE_X_MIN vo) (VROT_IMAGE_X_MAX vo)
               (VROT_IMAGE_Y_MIN vo) (VROT_IMAGE_Y_MAX vo) ->
  w < 2 ^ 31 -> h < 2 ^ 31 ->
  VTRANS_IMAGE_X_MAX vo - VTRANS_IMAGE_X_MIN vo < 2 ^ 16 ->
  VROT_IMAGE_X_MAX vo - VROT_IMAGE_X_MIN vo < 2 ^ 16 ->
  ready vo w h /\ first vo = true /\
  Forall (fun v => v = d0) (vtrans_profile vo) /\
  Forall (fun v => v = d0) (vtrans_prev_profile vo) /\
  Forall (fun v => v = d0) (vrot_profile vo) /\
  Forall (fun v => v = d0) (vrot_prev_profile vo).
Proof.
  unfold VisualOdometry_ctor, resize.
  destruct (to_int32 _ <? 0); [discriminate|].
  destruct (to_int32 _ <? 0); [discriminate|].
  intros H. injection H as <-.
  cbn [IMAGE_HEIGHT IMAGE_WIDTH VTRANS_IMAGE_X_MIN VTRANS_IMAGE_X_MAX
       VTRANS_IMAGE_Y_MIN VTRANS_IMAGE_Y_MAX VROT_IMAGE_X_MIN
       VROT_IMAGE_X_MAX VROT_IMAGE_Y_MIN VROT_IMAGE_Y_MAX CAMERA_FOV_DEG
       CAMERA_HZ VTRANS_SCALING VTRANS_MAX vtrans_profile vrot_profile
       vtrans_prev_profile vrot_prev_profile first].
  intros [Ht0 [Ht1 [Ht2 [Ht3 [Ht4 Ht5]]]]] [Hr0 [Hr1 [Hr2 [Hr3 [Hr4 Hr5]]]]]
         Hw Hh Wt Wr.
  assert (Hz : forall n, Forall (fun v : D => v = d0) (repeat d0 n)).
  { intros n. apply Forall_forall. intros v Hv.
    apply repeat_spec in Hv. exact Hv. }
  unfold ready, valid_region.
  cbn [IMAGE_HEIGHT IMAGE_WIDTH VTRANS_IMAGE_X_MIN VTRANS_IMAGE_X_MAX
       VTRANS_IMAGE_Y_MIN VTRANS_IMAGE_Y_MAX VROT_IMAGE_X_MIN
       VROT_IMAGE_X_MAX VROT_IMAGE_Y_MIN VROT_IMAGE_Y_MAX CAMERA_FOV_DEG
       CAMERA_HZ VTRANS_SCALING VTRANS_MAX vtrans_profile vrot_profile
       vtrans_prev_profile vrot_prev_profile first].
  rewrite !repeat_length. rewrite !int_width_small by lia.
  repeat split; try apply Hz; lia.
Qed.

(** X15.  On an instance that the constructor has just returned, the first
    call of [on_image] gives the same outputs and the same instance as it
    would with the first-frame flag cleared: the seeding of the previous
    profiles copies zeros over zeros. *)
Theorem first_call_ignores_flag {D : Type} {dbl : Double D}
    (image_width_member image_height_member : Z)
    (vtrans_image_x_min vtrans_image_x_max
     vtrans_image_y_min vtrans_image_y_max
     vrot_image_x_min vrot_image_x_max
     vrot_image_y_min vrot_image_y_max : Z)
    (camera_fov_deg camera_hz vtrans_scaling vtrans_max : D)
    (vo : VisualOdometry D) (data : list byte) (greyscale : bool)
    (image_width image_height : Z) :
  VisualOdometry_ctor image_width_member image_height_member
    vtrans_image_x_min vtrans_image_x_max
    vtrans_image_y_min vtrans_image_y_max
    vrot_image_x_min vrot_image_x_max
    vrot_image_y_min vrot_image_y_max
    camera_fov_deg camera_hz vtrans_scaling vtrans_max = Some vo ->
  first vo = true /\
  on_image vo data greyscale image_width image_height
  = on_image (set_first false vo) data greyscale image_width image_height.
Proof. apply first_frame_seeding_noop. Qed.

(** ** Instances of the further properties *)

(** [fresh_vo] is ready for frames of 40 by 1 pixels. *)
Lemma fresh_vo_ready {D : Type} {dbl : Double D} (fov : Z) :
  ready (fresh_vo (D := D) fov) 40 1.
Proof.
  unfold ready, valid_region. cbn.
  repeat split; lia.
Qed.


Lemma extractor_overwrites_buffer_witness :
  valid_region 40 1 0 40 0 1 /\
  convert_view_to_view_template (fresh_vo (D := float) 50) step_profile
    frame1 true 0 40 0 1
  = convert_view_to_view_template (fresh_vo (D := float) 50) flat_profile
      frame1 true 0 40 0 1.
Proof.
  assert (Hv : valid_region 40 1 0 40 0 1) by (unfold valid_region; lia).
  split; [exact Hv|].
  apply (extractor_overwrites_buffer (fresh_vo 50) step_profile flat_profile
           frame1 true 0 40 0 1 Hv); reflexivity.
Defined.



Lemma search_records_minimum_witness :
  slen <= 40 /\
  (fst (search (D := Q) step_profile tail_profile 40) <= lit_1e6)%Q.
Proof.
  assert (H : slen <= 40) by (unfold slen; lia).
  split; [exact H|].
  exact (proj1 (search_records_minimum step_profile tail_profile 40 H)).
Defined.

(** [flat_profile] is [step_profile] moved by one column. *)
Lemma flat_is_step_moved (j : Z) :
  0 <= j < 40 - 1 ->
  (rd d0 (flat_profile (D := Q)) j == rd d0 step_profile (j + 1))%Q.
Proof.
  intros Hj.
  replace j with (Z.of_nat (Z.to_nat j)) by lia.
  assert (Hn : (Z.to_nat j < 39)%nat) by lia.
  revert Hn. generalize (Z.to_nat j) as n. intros n Hn.
  do 39 (destruct n as [|n]; [vm_compute; reflexivity|]). lia.
Qed.

Lemma search_detects_shift_witness :
  slen <= 40 /\ 0 <= 1 < slen /\
  (fst (search (D := Q) flat_profile step_profile 40) == 0)%Q /\
  - 1 <= snd (search (D := Q) flat_profile step_profile 40) <= 0.
Proof.
  assert (H1 : slen <= 40) by (unfold slen; lia).
  assert (H2 : 0 <= 1 < slen) by (unfold slen; lia).
  split; [exact H1|]. split; [exact H2|].
  exact (search_detects_shift flat_profile step_profile 40 1 H1 H2
           flat_is_step_moved).
Defined.

(** [tail_profile] is [step_profile] moved by one column, the other way. *)
Lemma step_is_tail_moved (j : Z) :
  0 <= j < 40 - 1 ->
  (rd d0 (step_profile (D := Q)) (j + 1) == rd d0 tail_profile j)%Q.
Proof.
  intros Hj.
  replace j with (Z.of_nat (Z.to_nat j)) by lia.
  assert (Hn : (Z.to_nat j < 39)%nat) by lia.
  revert Hn. generalize (Z.to_nat j) as n. intros n Hn.
  do 39 (destruct n as [|n]; [vm_compute; reflexivity|]). lia.
Qed.

(** Every candidate of the first loop for [step_profile] against
    [tail_profile] is above 0. *)
Lemma step_tail_first_loop_positive (o : Z) :
  0 <= o < slen ->
  (0 < cdiff_fst (D := Q) step_profile tail_profile 40 o)%Q.
Proof.
  intros Ho. unfold slen in Ho.
  replace o with (Z.of_nat (Z.to_nat o)) by lia.
  assert (Hn : (Z.to_nat o < 40)%nat) by lia.
  revert Hn. generalize (Z.to_nat o) as n. intros n Hn.
  do 40 (destruct n as [|n]; [vm_compute; reflexivity|]). lia.
Qed.

Lemma search_detects_opposite_shift_witness :
  slen <= 40 /\ 0 <= 1 < slen /\
  (fst (search (D := Q) step_profile tail_profile 40) == 0)%Q /\
  0 <= snd (search (D := Q) step_profile tail_profile 40) <= 1.
Proof.
  assert (H1 : slen <= 40) by (unfold slen; lia).
  assert (H2 : 0 <= 1 < slen) by (unfold slen; lia).
  split; [exact H1|]. split; [exact H2|].
  exact (search_detects_opposite_shift step_profile tail_profile 40 1 H1 H2
           step_is_tail_moved step_tail_first_loop_positive).
Defined.

Lemma on_image_previous_is_current_witness :
  let vo := fresh_vo (D := float) 50 in
  let vo' := fst (on_image vo frame1 true 40 1) in
  length (vtrans_prev_profile vo) = length (vtrans_profile vo) /\
  length (vrot_prev_profile vo) = length (vrot_profile vo) /\
  vtrans_prev_profile vo' = vtrans_profile vo' /\
  vrot_prev_profile vo' = vrot_profile vo'.
Proof.
  cbv zeta.
  assert (H1 : length (vtrans_prev_profile (fresh_vo (D := float) 50))
               = length (vtrans_profile (fresh_vo (D := float) 50)))
    by reflexivity.
  assert (H2 : length (vrot_prev_profile (fresh_vo (D := float) 50))
               = length (vrot_profile (fresh_vo (D := float) 50)))
    by reflexivity.
  split; [exact H1|]. split; [exact H2|].
  apply (on_image_previous_is_current (fresh_vo 50) frame1 true 40 1 H1 H2);
    reflexivity.
Defined.

Lemma on_image_keeps_ready_witness :
  ready (fresh_vo (D := float) 50) 40 1 /\
  ready (fst (on_image (fresh_vo (D := float) 50) frame1 true 40 1)) 40 1.
Proof.
  split; [apply fresh_vo_ready|].
  exact (proj1 (on_image_keeps_ready (fresh_vo 50) frame1 true 40 1
                  (fresh_vo_ready 50))).
Defined.

Lemma on_image_profiles_in_unit_witness :
  ready (fresh_vo (D := Q) 50) 40 1 /\
  unit_profile (vtrans_profile
                  (fst (on_image (fresh_vo (D := Q) 50) frame1 true 40 1))) /\
  unit_profile (vrot_prev_profile
                  (fst (on_image (fresh_vo (D := Q) 50) frame1 true 40 1))).
Proof.
  split; [apply fresh_vo_ready|].
  destruct (on_image_profiles_in_unit (fresh_vo 50) frame1 true 40 1
              (fresh_vo_ready 50) eq_refl) as [H1 [_ [_ H4]]].
  split; [exact H1 | exact H4].
Defined.

(** A buffer of zeros is a profile with entries between 0 and 1. *)
Lemma zeros_unit (n : nat) : unit_profile (repeat (d0 (D := Q)) n).
Proof.
  unfold unit_profile. apply Forall_forall. intros v Hv.
  apply repeat_spec in Hv. subst v. split; discriminate.
Qed.

Lemma on_image_vtrans_range_witness :
  ready (fresh_vo (D := Q) 50) 40 1 /\
  (0 <= fst (snd (on_image (fresh_vo (D := Q) 50) frame1 true 40 1))
   <= VTRANS_SCALING (fresh_vo (D := Q) 50))%Q.
Proof.
  split; [apply fresh_vo_ready|].
  apply (on_image_vtrans_range (fresh_vo 50) frame1 true 40 1
           (fresh_vo_ready 50) eq_refl).
  - unfold slen. cbn. lia.
  - apply zeros_unit.
  - apply zeros_unit.
  - discriminate.
  - discriminate.
Defined.

Lemma on_image_same_frame_twice_witness :
  let vo1 := fst (on_image (fresh_vo (D := Q) 50) frame1 true 40 1) in
  let out := snd (on_image vo1 frame1 true 40 1) in
  ready (fresh_vo (D := Q) 50) 40 1 /\
  (fst out == 0)%Q /\ (snd out == 0)%Q.
Proof.
  cbv zeta. split; [apply fresh_vo_ready|].
  apply (on_image_same_frame_twice (fresh_vo 50) frame1 true 40 1
           (fresh_vo_ready 50) eq_refl).
  - unfold slen. cbn. lia.
  - unfold slen. cbn. lia.
  - discriminate.
Defined.

Lemma ctor_ready_witness :
  VisualOdometry_ctor (D := float) 40 1 0 40 0 1 0 40 0 1
    (of_int 50) (of_int 10) (of_int 100) (of_int 20)
  = Some (fresh_vo 50) /\
  ready (fresh_vo (D := float) 50) 40 1 /\
  first (fresh_vo (D := float) 50) = true.
Proof.
  assert (H : VisualOdometry_ctor (D := float) 40 1 0 40 0 1 0 40 0 1
                (of_int 50) (of_int 10) (of_int 100) (of_int 20)
              = Some (fresh_vo 50)) by reflexivity.
  split; [exact H|].
  destruct (ctor_ready 40 1 0 40 0 1 0 40 0 1
              (of_int 50) (of_int 10) (of_int 100) (of_int 20)
              (fresh_vo (D := float) 50) 40 1 H) as [Hr [Hf _]];
    try (unfold valid_region; cbn; lia); try (cbn; lia).
  split; [exact Hr | exact Hf].
Defined.

Lemma first_call_ignores_flag_witness :
  VisualOdometry_ctor (D := float) 40 1 0 40 0 1 0 40 0 1
    (of_int 50) (of_int 10) (of_int 100) (of_int 20)
  = Some (fresh_vo 50) /\
  on_image (fresh_vo (D := float) 50) frame1 true 40 1
  = on_image (set_first false (fresh_vo 50)) frame1 true 40 1.
Proof.
  assert (H : VisualOdometry_ctor (D := float) 40 1 0 40 0 1 0 40 0 1
                (of_int 50) (of_int 10) (of_int 100) (of_int 20)
              = Some (fresh_vo 50)) by reflexivity.
  split; [exact H|].
  exact (proj2 (first_call_ignores_flag 40 1 0 40 0 1 0 40 0 1
                  (of_int 50) (of_int 10) (of_int 100) (of_int 20)
                  (fresh_vo 50) frame1 true 40 1 H)).
Defined.

(** ** No hidden input *)


Section NoHiddenInput.

Context {D : Type} {dbl : Double D}.









End NoHiddenInput.




(** ** Further instances, and inputs on which a property fails *)

(** A region of 65537 columns, which the constructor accepts, and a white
    frame of 65537 by 1 pixels: [on_image] passes the length of the profile
    as an unsigned short, which is 1, and after the call the entry 1 of the
    previous rotation profile is still 0 while that of the current profile
    is 1. *)
Lemma wide_profile_not_copied :
  let zeros := repeat (d0 (D := float)) (Z.to_nat 65537) in
  let vo := plain_vo 65537 50 zeros zeros in
  let white := repeat xff (Z.to_nat 65537) in
  let vo' := fst (on_image vo white true 65537 1) in
  valid_region 65537 1 (VROT_IMAGE_X_MIN vo) (VROT_IMAGE_X_MAX vo)
               (VROT_IMAGE_Y_MIN vo) (VROT_IMAGE_Y_MAX vo) /\
  Z.of_nat (length (vrot_profile vo)) = 65537 /\
  Z.of_nat (length (vrot_prev_profile vo)) = 65537 /\
  to_ushort (Z.of_nat (length (vrot_profile vo'))) = 1 /\
  rd d0 (vrot_profile vo') 1 = 1%float /\
  rd d0 (vrot_prev_profile vo') 1 = 0%float /\
  PrimFloat.eqb (rd d0 (vrot_prev_profile vo') 1)
                (rd d0 (vrot_profile vo') 1) = false.
Proof.
  cbv zeta.
  set (zeros := repeat (d0 (D := float)) (Z.to_nat 65537)).
  set (white := repeat xff (Z.to_nat 65537)).
  set (vo := plain_vo 65537 50 zeros zeros).
  assert (Hz : Z.of_nat (length zeros) = 65537).
  { unfold zeros. rewrite repeat_length. lia. }
  destruct (on_image_result vo white true 65537 1)
    as [_ [A2 [_ [A4 _]]]].
  destruct (on_image_lengths vo white true 65537 1) as [_ [_ [L3 _]]].
  change (vrot_profile vo) with zeros in *.
  change (vrot_prev_profile vo) with zeros in *.
  change (first vo) with false in *.
  change (VROT_IMAGE_X_MIN vo) with 0 in *.
  change (VROT_IMAGE_X_MAX vo) with 65537 in *.
  change (VROT_IMAGE_Y_MIN vo) with 0 in *.
  change (VROT_IMAGE_Y_MAX vo) with 1 in *.
  assert (Hw : to_ushort
                 (Z.of_nat (length (vrot_profile
                                      (fst (on_image vo white true 65537 1)))))
               = 1).
  { rewrite L3, Hz. reflexivity. }
  assert (Hcur : rd d0 (vrot_profile (fst (on_image vo white true 65537 1))) 1
                 = 1%float).
  { rewrite A2. rewrite extractor_means by (try exact Hz; lia).
    rewrite rd_map_seq by lia.
    vm_compute. reflexivity. }
  assert (Hprev : rd d0 (vrot_prev_profile
                           (fst (on_image vo white true 65537 1))) 1
                  = 0%float).
  { rewrite A4. rewrite extractor_length. rewrite Hz.
    change (to_ushort 65537) with 1.
    destruct (copy_loop_spec 1
                (convert_view_to_view_template
                   (set_dims (to_int32 65537) (to_int32 1) vo) zeros white
                   true 0 65537 0 1) zeros) as [_ Hrd]; [lia|].
    rewrite Hrd. vm_compute. reflexivity. }
  split; [unfold valid_region; lia|].
  split; [exact Hz|]. split; [exact Hz|]. split; [exact Hw|].
  split; [exact Hcur|]. split; [exact Hprev|].
  rewrite Hcur, Hprev. reflexivity.
Qed.

(** Two instances on which the speed left is not less than or equal to the
    ceiling.  A ceiling that is a NaN: the speed left is 100 times the mean
    difference, above 50.  A scaling that is infinite, on a black frame: the
    mean difference is 0, the product is a NaN, and it is left as it is. *)
Lemma nan_not_clamped :
  (exists vo : VisualOdometry float,
     VisualOdometry_ctor 0 0 0 40 0 1 0 40 0 1
       (of_int 50) (of_int 10) (of_int 100) PrimFloat.nan = Some vo /\
     PrimFloat.is_nan (VTRANS_MAX vo) = true /\
     PrimFloat.leb (fst (snd (on_image vo frame1 true 40 1))) (VTRANS_MAX vo)
     = false /\
     PrimFloat.ltb 50 (fst (snd (on_image vo frame1 true 40 1))) = true) /\
  (exists vo : VisualOdometry float,
     VisualOdometry_ctor 0 0 0 40 0 1 0 40 0 1
       (of_int 50) (of_int 10) PrimFloat.infinity (of_int 20) = Some vo /\
     PrimFloat.is_nan (VTRANS_MAX vo) = false /\
     PrimFloat.is_nan (fst (snd (on_image vo (repeat x00 40) true 40 1)))
     = true /\
     PrimFloat.leb (fst (snd (on_image vo (repeat x00 40) true 40 1)))
                   (VTRANS_MAX vo) = false).
Proof.
  split.
  - eexists. split; [reflexivity|]. split; [reflexivity|].
    split; vm_compute; reflexivity.
  - eexists. split; [reflexivity|]. split; [reflexivity|].
    split; vm_compute; reflexivity.
Qed.

(** An instance with a ceiling of 20 on which neither the ceiling nor the
    speed is a NaN. *)
Lemma on_image_vtrans_clamped_witness :
  PrimFloat.is_nan (VTRANS_MAX (fresh_vo (D := float) 50)) = false /\
  PrimFloat.is_nan (fst (snd (on_image (fresh_vo (D := float) 50) frame1 true 40 1))) = false /\
  PrimFloat.leb (fst (snd (on_image (fresh_vo (D := float) 50) frame1 true 40 1)))
                (VTRANS_MAX (fresh_vo (D := float) 50)) = true.
Proof.
  assert (H1 : PrimFloat.is_nan (VTRANS_MAX (fresh_vo (D := float) 50)) = false)
    by reflexivity.
  assert (H2 : PrimFloat.is_nan
                 (fst (snd (on_image (fresh_vo (D := float) 50) frame1 true
                              40 1))) = false)
    by (vm_compute; reflexivity).
  split; [exact H1|]. split; [exact H2|].
  exact (proj2 (proj2 on_image_vtrans_clamped (fresh_vo 50) frame1 true 40 1)
           H1 H2).
Defined.

(** The rotation region from column -2^31 to column 0: the width wraps
    around to -2^31 and the constructor throws. *)
Lemma ctor_throws_on_negative_width_witness :
  is_int 160 /\ is_int 0 /\ is_int 40 /\ is_int (- 2 ^ 31) /\
  2 ^ 31 <= resolved 0 160 - (- 2 ^ 31) /\
  VisualOdometry_ctor (D := float) 160 120 0 40 0 1 (- 2 ^ 31) 0 0 1
    (of_int 50) (of_int 10) (of_int 100) (of_int 20) = None.
Proof.
  assert (I160 : is_int 160) by (unfold is_int; lia).
  assert (I0 : is_int 0) by (unfold is_int; lia).
  assert (I40 : is_int 40) by (unfold is_int; lia).
  assert (Im : is_int (- 2 ^ 31)) by (unfold is_int; lia).
  assert (Hw : 2 ^ 31 <= resolved 0 160 - (- 2 ^ 31))
    by (unfold resolved; cbn; lia).
  split; [exact I160|]. split; [exact I0|]. split; [exact I40|].
  split; [exact Im|]. split; [exact Hw|].
  apply (ctor_throws_on_negative_width 160 120 0 40 0 1 (- 2 ^ 31) 0 0 1
           (of_int 50) (of_int 10) (of_int 100) (of_int 20) I160 I0 I40 Im I0).
  right. right. right. exact Hw.
Defined.

(** The resolved bound comes from the member, not from the frames: an
    instance constructed with the rotation [x_max = -1] while the member
    [IMAGE_WIDTH] holds 7 has the bound 7, and keeps it after a frame of 160
    by 120 pixels. *)
Lemma ctor_bound_not_from_frame :
  exists vo : VisualOdometry float,
    VisualOdometry_ctor 7 5 0 7 0 5 0 (-1) 0 5
      (of_int 50) (of_int 10) (of_int 100) (of_int 20) = Some vo /\
    VROT_IMAGE_X_MAX vo = 7 /\
    VROT_IMAGE_X_MAX
      (fst (on_image vo (repeat x00 (Z.to_nat (160 * 120))) true 160 120)) = 7.
Proof.
  eexists. split; [reflexivity|]. split; [reflexivity|].
  match goal with
  | |- VROT_IMAGE_X_MAX (fst (on_image ?v ?d ?g ?w ?h)) = _ =>
      destruct (on_image_keeps_regions v d g w h)
        as [_ [_ [_ [_ [_ [_ [_ [_ [K _]]]]]]]]]
  end.
  rewrite K. reflexivity.
Qed.
